(** * Task Management API: validators, token service, user and task stores

    A shallow embedding of the request handlers of the task management
    API (app/routes, app/services, app/middleware, app/utils) and the
    properties of its specification.

    Conventions of the embedding:
    - a Python [str] is a list of Unicode code points ([str := list N]);
      the messages carried by an [HTTPException] are literal and kept as
      Rocq strings;
    - the relational store is a pair of tables, each a list of rows in
      insertion order; [query.filter(..).first()] is the head of the
      filtered table, a flushed row replaces the rows with its primary key;
    - a handler is a function from the store to a response and a store:
      raising [HTTPException] before [db.commit()] leaves the store as it
      was;
    - clocks ([datetime.utcnow()], the store's [now()]) are arguments, in
      whole seconds as a JWT NumericDate has them; where a token is issued
      the microsecond field of the reading is an argument of its own. *)

From Stdlib Require Import ZArith NArith List Bool Ascii String Lia.
From Stdlib Require Import DecimalString.
From stdpp Require Import base decidable option list strings gmap.

Open Scope Z_scope.

(** ** Python strings *)

Definition char := N.
Definition str := list char.

(** [py s]: the Python string with the code points of an ASCII literal. *)
Definition py (s : string) : str :=
  map N_of_ascii (list_ascii_of_string s).

Definition LF : char := 10%N.
Definition SP : char := 32%N.
Definition LT : char := 60%N.
Definition GT : char := 62%N.
Definition AT : char := 64%N.
Definition DOT : char := 46%N.

Definition in_range (lo hi c : char) : bool := (lo <=? c)%N && (c <=? hi)%N.
Arguments in_range (lo hi c)%_N.

(** [A-Z], [a-z], [0-9] *)
Definition is_upper (c : char) : bool := in_range 65 90 c.
Definition is_lower (c : char) : bool := in_range 97 122 c.
Definition is_digit (c : char) : bool := in_range 48 57 c.
Definition is_alpha (c : char) : bool := is_upper c || is_lower c.

(** [[a-zA-Z0-9_]] *)
Definition is_word (c : char) : bool :=
  is_lower c || is_upper c || is_digit c || (c =? 95)%N.

(** [[a-zA-Z0-9._%+-]] *)
Definition is_local (c : char) : bool :=
  is_lower c || is_upper c || is_digit c ||
  (c =? 46)%N || (c =? 95)%N || (c =? 37)%N || (c =? 43)%N || (c =? 45)%N.

(** [[a-zA-Z0-9.-]] *)
Definition is_domain (c : char) : bool :=
  is_lower c || is_upper c || is_digit c || (c =? 46)%N || (c =? 45)%N.

(** The punctuation class of [has_special]: ! @ # $ % ^ & * ( ) , . ?
    double-quote : { } | < > *)
Definition is_special (c : char) : bool :=
  existsb (N.eqb c)
    [33; 64; 35; 36; 37; 94; 38; 42; 40; 41; 44; 46; 63; 34; 58; 123; 125;
     124; 60; 62]%N.

(** [\s] on a [str] pattern and the characters [str.strip()] removes: the
    code points for which [str.isspace] holds. *)
Definition is_space (c : char) : bool :=
  in_range 9 13 c || in_range 28 32 c || (c =? 133)%N || (c =? 160)%N ||
  (c =? 5760)%N || in_range 8192 8202 c || (c =? 8232)%N || (c =? 8233)%N ||
  (c =? 8239)%N || (c =? 8287)%N || (c =? 12288)%N.

(** ** Regular expressions of app/utils/validators.py

    Each pattern is written out as the backtracking matcher it denotes. *)

(** [$] without [re.MULTILINE]: at the end of the string, or just before a
    newline that ends the string. *)
Definition at_dollar (s : str) : bool :=
  match s with
  | [] => true
  | [c] => (c =? LF)%N
  | _ => false
  end.

(** [cls+$] from the current position: one character of the class, then
    either more of the same or [$]. *)
Fixpoint match_plus_dollar (cls : char -> bool) (s : str) : bool :=
  match s with
  | [] => false
  | c :: r => cls c && (match_plus_dollar cls r || at_dollar r)
  end.

(** [cls*$] *)
Definition match_star_dollar (cls : char -> bool) (s : str) : bool :=
  match_plus_dollar cls s || at_dollar s.

(** [[a-zA-Z]{2,}$] *)
Definition match_tld (s : str) : bool :=
  match s with
  | c1 :: c2 :: r => is_alpha c1 && is_alpha c2 && match_star_dollar is_alpha r
  | _ => false
  end.

(** [[a-zA-Z0-9.-]+\.[a-zA-Z]{2,}$] *)
Fixpoint match_domain (s : str) : bool :=
  match s with
  | [] => false
  | c :: r =>
      is_domain c &&
      (match_domain r ||
       match r with
       | d :: t => (d =? DOT)%N && match_tld t
       | [] => false
       end)
  end.

(** [[a-zA-Z0-9._%+-]+@[a-zA-Z0-9.-]+\.[a-zA-Z]{2,}$] *)
Fixpoint match_email (s : str) : bool :=
  match s with
  | [] => false
  | c :: r =>
      is_local c &&
      (match_email r ||
       match r with
       | a :: t => (a =? AT)%N && match_domain t
       | [] => false
       end)
  end.

(** [re.sub(r'<[^>]*>', '', s)]: the scan is either outside a tag or inside
    one.  A [<] opens a match exactly when a [>] follows somewhere
    ([[^>]*] also runs over newlines and over further [<]); the match ends
    at the first [>]. *)
Fixpoint sub_tags (in_tag : bool) (s : str) : str :=
  match s with
  | [] => []
  | c :: r =>
      if in_tag then
        if (c =? GT)%N then sub_tags false r else sub_tags true r
      else if (c =? LT)%N && existsb (N.eqb GT) r then sub_tags true r
      else c :: sub_tags false r
  end.

(** [re.sub(r'\s+', ' ', s)]: the first character of a run of whitespace
    becomes one space, the rest of the run is dropped. *)
Fixpoint sub_spaces (in_run : bool) (s : str) : str :=
  match s with
  | [] => []
  | c :: r =>
      if is_space c then
        if in_run then sub_spaces true r else SP :: sub_spaces true r
      else c :: sub_spaces false r
  end.

Fixpoint lstrip (s : str) : str :=
  match s with
  | [] => []
  | c :: r => if is_space c then lstrip r else s
  end.

Definition rstrip (s : str) : str := rev (lstrip (rev s)).

(** [str.strip()] *)
Definition strip (s : str) : str := rstrip (lstrip s).

(** ** app/utils/validators.py *)

Section Validators.

(** [\d] on a [str] pattern matches every Unicode decimal digit; the
    table of the Unicode database is a parameter. *)
Variable unicode_decimal : char -> bool.

Definition validate_email (email : str) : bool := match_email email.

Definition validate_password (password : str) : bool :=
  if (length password <? 8)%nat then false
  else
    let has_upper := existsb is_upper password in
    let has_lower := existsb is_lower password in
    let has_digit := existsb unicode_decimal password in
    let has_special := existsb is_special password in
    has_upper && has_lower && has_digit && has_special.

Definition validate_username (username : str) : bool :=
  if negb ((3 <=? length username)%nat && (length username <=? 50)%nat)
  then false
  else match_plus_dollar is_word username.

(** The body of [sanitize_string] on an argument that is not [None]. *)
Definition sanitize (input_string : str) : str :=
  let sanitized := sub_tags false input_string in
  let sanitized := sub_spaces false sanitized in
  let sanitized := strip sanitized in
  sanitized.

Definition sanitize_string (input_string : option str) : option str :=
  match input_string with
  | None => None
  | Some input_string => Some (sanitize input_string)
  end.

End Validators.

(** ** Errors *)

(** [HTTPException(status_code=.., detail=..)], and the 422 answer the
    framework gives for a parameter outside its declared bounds. *)
Inductive HTTPError :=
| HTTPException (status_code : Z) (detail : string)
| RequestValidationError.

Definition status_of (e : HTTPError) : Z :=
  match e with
  | HTTPException c _ => c
  | RequestValidationError => 422
  end.

Definition HTTP_400_BAD_REQUEST : Z := 400.
Definition HTTP_401_UNAUTHORIZED : Z := 401.
Definition HTTP_403_FORBIDDEN : Z := 403.
Definition HTTP_404_NOT_FOUND : Z := 404.

Definition result (A : Type) : Type := HTTPError + A.

Section Registration_data.

Variable unicode_decimal : char -> bool.

(** [validate_registration_data]: [inl] is the raised exception. *)
Definition validate_registration_data (username email password : str)
  : result unit :=
  if negb (validate_username username) then
    inl (HTTPException HTTP_400_BAD_REQUEST
      "Username must be 3-50 characters and contain only letters, numbers, and underscores")
  else if negb (validate_email email) then
    inl (HTTPException HTTP_400_BAD_REQUEST "Invalid email address")
  else if negb (validate_password unicode_decimal password) then
    inl (HTTPException HTTP_400_BAD_REQUEST
      "Password must be at least 8 characters and contain uppercase, lowercase, number, and special character")
  else inr tt.

End Registration_data.

(** ** app/models *)

Definition datetime := Z.

Inductive TaskStatus := TODO | IN_PROGRESS | COMPLETED.
Inductive TaskPriority := LOW | MEDIUM | HIGH.

Global Instance TaskStatus_eq_dec : EqDecision TaskStatus.
Proof. solve_decision. Defined.
Global Instance TaskPriority_eq_dec : EqDecision TaskPriority.
Proof. solve_decision. Defined.

Module User.
Record t := mk {
  id : Z;
  email : str;
  username : str;
  hashed_password : str;
  full_name : option str;
  is_active : bool;
  is_admin : bool;
  created_at : datetime;
  updated_at : option datetime
}.

Definition with_is_active (v : bool) (u : t) : t :=
  mk (id u) (email u) (username u) (hashed_password u) (full_name u)
     v (is_admin u) (created_at u) (updated_at u).
Definition with_hashed_password (v : str) (u : t) : t :=
  mk (id u) (email u) (username u) v (full_name u)
     (is_active u) (is_admin u) (created_at u) (updated_at u).
Definition with_updated_at (v : option datetime) (u : t) : t :=
  mk (id u) (email u) (username u) (hashed_password u) (full_name u)
     (is_active u) (is_admin u) (created_at u) v.
End User.

Module Task.
Record t := mk {
  id : Z;
  title : str;
  description : option str;
  status : TaskStatus;
  priority : TaskPriority;
  due_date : option datetime;
  owner_id : Z;
  created_at : datetime;
  updated_at : option datetime;
  completed_at : option datetime
}.

Definition with_title (v : str) (x : t) : t :=
  mk (id x) v (description x) (status x) (priority x) (due_date x)
     (owner_id x) (created_at x) (updated_at x) (completed_at x).
Definition with_description (v : option str) (x : t) : t :=
  mk (id x) (title x) v (status x) (priority x) (due_date x)
     (owner_id x) (created_at x) (updated_at x) (completed_at x).
Definition with_status (v : TaskStatus) (x : t) : t :=
  mk (id x) (title x) (description x) v (priority x) (due_date x)
     (owner_id x) (created_at x) (updated_at x) (completed_at x).
Definition with_priority (v : TaskPriority) (x : t) : t :=
  mk (id x) (title x) (description x) (status x) v (due_date x)
     (owner_id x) (created_at x) (updated_at x) (completed_at x).
Definition with_due_date (v : option datetime) (x : t) : t :=
  mk (id x) (title x) (description x) (status x) (priority x) v
     (owner_id x) (created_at x) (updated_at x) (completed_at x).
Definition with_updated_at (v : option datetime) (x : t) : t :=
  mk (id x) (title x) (description x) (status x) (priority x) (due_date x)
     (owner_id x) (created_at x) v (completed_at x).
Definition with_completed_at (v : option datetime) (x : t) : t :=
  mk (id x) (title x) (description x) (status x) (priority x) (due_date x)
     (owner_id x) (created_at x) (updated_at x) v.
End Task.

Global Instance User_eq_dec : EqDecision User.t.
Proof. solve_decision. Defined.
Global Instance Task_eq_dec : EqDecision Task.t.
Proof. solve_decision. Defined.

(** ** The store behind a [Session] *)

Record Store := mkStore {
  users : list User.t;
  tasks : list Task.t
}.

(** The primary key an INSERT gives a row with no [id]: one more than the
    largest key of the table (the row id of the default SQLite store). *)
Definition next_id (ids : list Z) : Z := 1 + foldr Z.max 0 ids.

(** [onupdate=func.now()]: a flush writes a row only when one of its
    columns differs from the loaded row, and then stamps [updated_at]. *)
Definition flush_task (db_now : datetime) (loaded task : Task.t) : Task.t :=
  if decide (task = loaded) then loaded
  else Task.with_updated_at (Some db_now) task.

Definition flush_user (db_now : datetime) (loaded user : User.t) : User.t :=
  if decide (user = loaded) then loaded
  else User.with_updated_at (Some db_now) user.

(** UPDATE .. WHERE id = pk *)
Definition save_task (task : Task.t) (rows : list Task.t) : list Task.t :=
  map (fun r => if decide (Task.id r = Task.id task) then task else r) rows.

Definition save_user (user : User.t) (rows : list User.t) : list User.t :=
  map (fun r => if decide (User.id r = User.id user) then user else r) rows.

(** ** app/routes/tasks.py *)

Module TaskCreate.
Record t := mk {
  title : str;
  description : option str;
  priority : TaskPriority;   (* default MEDIUM *)
  due_date : option datetime
}.
End TaskCreate.

Module TaskUpdate.
Record t := mk {
  title : option str;
  description : option str;
  status : option TaskStatus;
  priority : option TaskPriority;
  due_date : option datetime
}.
End TaskUpdate.

(** [Query(default, ge=.., le=..)]: the default when the parameter is
    omitted, a validation error when it is outside its bounds. *)
Definition Query (default : Z) (ge le : option Z) (param : option Z)
  : result Z :=
  match param with
  | None => inr default
  | Some v =>
      if match ge with Some b => v <? b | None => false end then
        inl RequestValidationError
      else if match le with Some b => b <? v | None => false end then
        inl RequestValidationError
      else inr v
  end.

Definition task_not_found : HTTPError :=
  HTTPException HTTP_404_NOT_FOUND "Task not found".

(** [db.query(Task).filter(Task.id == task_id,
                            Task.owner_id == current_user.id).first()] *)
Definition query_task (task_id : Z) (current_user : User.t) (db : Store)
  : option Task.t :=
  head (filter (fun t => Task.id t = task_id /\
                         Task.owner_id t = User.id current_user) (tasks db)).

Definition create_task (task_data : TaskCreate.t) (current_user : User.t)
    (db_now : datetime) (db : Store) : result Task.t * Store :=
  let title := sanitize (TaskCreate.title task_data) in
  let description := sanitize_string (TaskCreate.description task_data) in
  let new_task :=
    Task.mk (next_id (map Task.id (tasks db)))
            title description
            TODO                           (* column default *)
            (TaskCreate.priority task_data)
            (TaskCreate.due_date task_data)
            (User.id current_user)
            db_now                         (* server_default=func.now() *)
            None None in
  (inr new_task, mkStore (users db) (tasks db ++ [new_task])).

Definition get_tasks (status : option TaskStatus)
    (priority : option TaskPriority) (skip limit : option Z)
    (current_user : User.t) (db : Store) : result (list Task.t) * Store :=
  match Query 0 (Some 0) None skip with
  | inl e => (inl e, db)
  | inr skip =>
  match Query 10 (Some 1) (Some 100) limit with
  | inl e => (inl e, db)
  | inr limit =>
      let query :=
        filter (fun t => Task.owner_id t = User.id current_user) (tasks db) in
      let query :=
        match status with
        | Some status => filter (fun t => Task.status t = status) query
        | None => query
        end in
      let query :=
        match priority with
        | Some priority => filter (fun t => Task.priority t = priority) query
        | None => query
        end in
      let tasks := take (Z.to_nat limit) (drop (Z.to_nat skip) query) in
      (inr tasks, db)
  end end.

Definition get_task (task_id : Z) (current_user : User.t) (db : Store)
  : result Task.t * Store :=
  match query_task task_id current_user db with
  | None => (inl task_not_found, db)
  | Some task => (inr task, db)
  end.

(** The assignments of [update_task], in the order of the source. *)
Definition apply_update (task_data : TaskUpdate.t) (utcnow : datetime)
    (task : Task.t) : Task.t :=
  let task :=
    match TaskUpdate.title task_data with
    | Some v => Task.with_title (sanitize v) task
    | None => task
    end in
  let task :=
    match TaskUpdate.description task_data with
    | Some v => Task.with_description (sanitize_string (Some v)) task
    | None => task
    end in
  let task :=
    match TaskUpdate.status task_data with
    | Some v =>
        let task := Task.with_status v task in
        if decide (v = COMPLETED)
        then Task.with_completed_at (Some utcnow) task
        else task
    | None => task
    end in
  let task :=
    match TaskUpdate.priority task_data with
    | Some v => Task.with_priority v task
    | None => task
    end in
  let task :=
    match TaskUpdate.due_date task_data with
    | Some v => Task.with_due_date (Some v) task
    | None => task
    end in
  task.

Definition update_task (task_id : Z) (task_data : TaskUpdate.t)
    (current_user : User.t) (utcnow db_now : datetime) (db : Store)
  : result Task.t * Store :=
  match query_task task_id current_user db with
  | None => (inl task_not_found, db)
  | Some loaded =>
      let task := apply_update task_data utcnow loaded in
      let task := flush_task db_now loaded task in
      (inr task, mkStore (users db) (save_task task (tasks db)))
  end.

Definition delete_task (task_id : Z) (current_user : User.t) (db : Store)
  : result unit * Store :=
  match query_task task_id current_user db with
  | None => (inl task_not_found, db)
  | Some task =>
      (inr tt,
       mkStore (users db)
               (filter (fun r => Task.id r <> Task.id task) (tasks db)))
  end.

(** ** app/services/auth_service.py *)

(** The values of a claims dictionary. *)
Inductive claim :=
| ClaimStr (s : str)
| ClaimInt (n : Z).

Global Instance claim_eq_dec : EqDecision claim.
Proof. solve_decision. Defined.

(** A token in parsed form: the three segments of the compact
    serialisation (the algorithm of the header, the claims, the signature),
    or a string that does not parse into them. *)
Inductive token :=
| Compact (alg : string) (payload : gmap string claim) (signature : str)
| Malformed (raw : str).

(** The causes for which [jwt.decode] raises; each is a [JWTError]. *)
Inductive JWTError :=
| DecodeError
| AlgorithmNotAllowed
| SignatureVerificationFailed
| ExpiredSignatureError
| JWTClaimsError.

Record Settings := mkSettings {
  SECRET_KEY : str;
  ALGORITHM : string;
  ACCESS_TOKEN_EXPIRE_MINUTES : Z
}.

(** A [timedelta], in microseconds. *)
Definition timedelta := Z.

(** [timegm((utcnow + delta).utctimetuple())] for a reading of the clock
    with its whole seconds and its microsecond field (0..999999): the sum
    rounded down to whole seconds. *)
Definition timegm_after (seconds microsecond : Z) (delta : timedelta) : Z :=
  (seconds * 1000000 + microsecond mod 1000000 + delta) / 1000000.

Section AuthService.

(** The keyed signature over header and claims (HS256 by default). *)
Variable sign : string -> str -> gmap string claim -> str.
(** [pwd_context.hash], with the salt it draws, and [pwd_context.verify]. *)
Variable pwd_hash : str -> str -> str.
Variable pwd_verify : str -> str -> bool.
Variable settings : Settings.
(** [int(s)] of a string: [None] when it raises [ValueError]. *)
Variable int_of_str : str -> option Z.

Definition jwt_encode (claims : gmap string claim) (key : str)
    (algorithm : string) : token :=
  Compact algorithm claims (sign algorithm key claims).

(** [int(v)] of the value of a claim. *)
Definition int_of_claim (v : claim) : option Z :=
  match v with
  | ClaimStr s => int_of_str s
  | ClaimInt n => Some n
  end.

(** The checks [jwt.decode] makes on the claims when it is called with its
    default options and without audience, issuer, subject or access token,
    in its order: [iat] and [nbf] read as integers, [nbf] not after the
    clock, [exp] read as an integer and not before the clock (no leeway),
    no [aud] (none is expected), [sub] and [jti] strings, no [at_hash]
    (there is no access token to compare).  [None]: the claims pass. *)
Definition validate_claims (claims : gmap string claim) (utcnow : datetime)
  : option JWTError :=
  let iat_ok :=
    match claims !! "iat" with
    | Some v => bool_decide (is_Some (int_of_claim v))
    | None => true
    end in
  if negb iat_ok then Some JWTClaimsError else
  match
    match claims !! "nbf" with
    | Some v =>
        match int_of_claim v with
        | None => Some JWTClaimsError
        | Some nbf => if utcnow <? nbf then Some JWTClaimsError else None
        end
    | None => None
    end
  with
  | Some e => Some e
  | None =>
  match
    match claims !! "exp" with
    | Some v =>
        match int_of_claim v with
        | None => Some JWTClaimsError
        | Some exp => if exp <? utcnow then Some ExpiredSignatureError
                      else None
        end
    | None => None
    end
  with
  | Some e => Some e
  | None =>
      if bool_decide (is_Some (claims !! "aud")) then Some JWTClaimsError
      else
        match claims !! "sub" with
        | Some (ClaimInt _) => Some JWTClaimsError
        | _ =>
            match claims !! "jti" with
            | Some (ClaimInt _) => Some JWTClaimsError
            | _ =>
                if bool_decide (is_Some (claims !! "at_hash"))
                then Some JWTClaimsError
                else None
            end
        end
  end end.

(** [jwt.decode(token, key, algorithms=..)] at clock reading [utcnow]:
    the header and the signature are checked first, then the claims. *)
Definition jwt_decode (t : token) (key : str) (algorithms : list string)
    (utcnow : datetime) : JWTError + gmap string claim :=
  match t with
  | Malformed _ => inl DecodeError
  | Compact alg payload signature =>
      if negb (bool_decide (alg ∈ algorithms)) then inl AlgorithmNotAllowed
      else if negb (bool_decide (signature = sign alg key payload)) then
        inl SignatureVerificationFailed
      else
        match validate_claims payload utcnow with
        | Some e => inl e
        | None => inr payload
        end
  end.

Definition verify_password (plain_password hashed_password : str) : bool :=
  pwd_verify plain_password hashed_password.

Definition get_password_hash (salt password : str) : str :=
  pwd_hash salt password.

(** [utcnow] and [microsecond] are the reading of [datetime.utcnow()]; a
    zero [timedelta] is falsy; [jwt.encode] turns the [exp] datetime into
    whole seconds. *)
Definition create_access_token (data : gmap string claim)
    (expires_delta : option timedelta) (utcnow microsecond : Z) : token :=
  let to_encode := data in
  let default :=
    timegm_after utcnow microsecond
      (ACCESS_TOKEN_EXPIRE_MINUTES settings * 60 * 1000000) in
  let expire :=
    match expires_delta with
    | Some d =>
        if d =? 0 then default else timegm_after utcnow microsecond d
    | None => default
    end in
  let to_encode := <["exp" := ClaimInt expire]> to_encode in
  jwt_encode to_encode (SECRET_KEY settings) (ALGORITHM settings).

Definition decode_token (t : token) (utcnow : datetime)
  : option (gmap string claim) :=
  match jwt_decode t (SECRET_KEY settings) [ALGORITHM settings] utcnow with
  | inr payload => Some payload
  | inl _ => None
  end.

End AuthService.

(** ** app/middleware/auth_middleware.py *)

Definition get_current_active_user (current_user : User.t) : result User.t :=
  if negb (User.is_active current_user) then
    inl (HTTPException HTTP_400_BAD_REQUEST "Inactive user")
  else inr current_user.

Definition get_current_admin_user (current_user : User.t) : result User.t :=
  match get_current_active_user current_user with
  | inl e => inl e
  | inr current_user =>
      if negb (User.is_admin current_user) then
        inl (HTTPException HTTP_403_FORBIDDEN "Not enough privileges")
      else inr current_user
  end.

(** ** app/routes/auth.py *)

Module UserCreate.
Record t := mk {
  username : str;
  email : str;
  password : str;
  full_name : option str
}.
End UserCreate.

(** The response schema that auth.py and users.py both declare. *)
Module UserResponse.
Record t := mk {
  id : Z;
  username : str;
  email : str;
  full_name : option str;
  is_active : bool;
  is_admin : bool
}.

(** [from_attributes = True]: each declared field is read off the row. *)
Definition from_attributes (u : User.t) : t :=
  mk (User.id u) (User.username u) (User.email u) (User.full_name u)
     (User.is_active u) (User.is_admin u).
End UserResponse.

(** What a route with [response_model=UserResponse] answers. *)
Definition respond {S : Type} (r : result User.t * S)
  : result UserResponse.t * S :=
  (match fst r with
   | inl e => inl e
   | inr u => inr (UserResponse.from_attributes u)
   end, snd r).

Definition respond_all {S : Type} (r : result (list User.t) * S)
  : result (list UserResponse.t) * S :=
  (match fst r with
   | inl e => inl e
   | inr us => inr (map UserResponse.from_attributes us)
   end, snd r).

Section AuthRoutes.

Variable unicode_decimal : char -> bool.
Variable pwd_hash : str -> str -> str.
(** The field type [EmailStr]: [None] when the address is rejected, and
    then the request is answered 422 before the handler runs; else the
    normalised address, which is what the handler reads. *)
Variable email_str : str -> option str.

(** [user_data] is the body of the request; [salt] is the randomness
    [pwd_context.hash] draws. *)
Definition register_user (user_data : UserCreate.t) (salt : str)
    (db_now : datetime) (db : Store) : result User.t * Store :=
  match email_str (UserCreate.email user_data) with
  | None => (inl RequestValidationError, db)
  | Some email =>
  let user_data :=
    UserCreate.mk (UserCreate.username user_data) email
                  (UserCreate.password user_data)
                  (UserCreate.full_name user_data) in
  match validate_registration_data unicode_decimal
          (UserCreate.username user_data) (UserCreate.email user_data)
          (UserCreate.password user_data) with
  | inl e => (inl e, db)
  | inr _ =>
  match head (filter (fun u => User.username u = UserCreate.username user_data)
                     (users db)) with
  | Some _ =>
      (inl (HTTPException HTTP_400_BAD_REQUEST "Username already registered"),
       db)
  | None =>
  match head (filter (fun u => User.email u = UserCreate.email user_data)
                     (users db)) with
  | Some _ =>
      (inl (HTTPException HTTP_400_BAD_REQUEST "Email already registered"),
       db)
  | None =>
      let hashed_password :=
        get_password_hash pwd_hash salt (UserCreate.password user_data) in
      let new_user :=
        User.mk (next_id (map User.id (users db)))
                (UserCreate.email user_data)
                (UserCreate.username user_data)
                hashed_password
                (UserCreate.full_name user_data)
                true false                   (* column defaults *)
                db_now None in
      (inr new_user, mkStore (users db ++ [new_user]) (tasks db))
  end end end end.

End AuthRoutes.

(** ** app/routes/users.py *)

Definition get_current_user_profile (current_user : User.t) : result User.t :=
  inr current_user.

Definition get_all_users (current_user : User.t) (db : Store)
  : result (list User.t) * Store :=
  let users := users db in
  (inr users, db).

Definition user_not_found : HTTPError :=
  HTTPException HTTP_404_NOT_FOUND "User not found".

Definition query_user (user_id : Z) (db : Store) : option User.t :=
  head (filter (fun u => User.id u = user_id) (users db)).

Definition deactivate_user (user_id : Z) (current_user : User.t)
    (db_now : datetime) (db : Store) : result User.t * Store :=
  if decide (user_id = User.id current_user) then
    (inl (HTTPException HTTP_400_BAD_REQUEST "Cannot deactivate yourself"),
     db)
  else
    match query_user user_id db with
    | None => (inl user_not_found, db)
    | Some loaded =>
        let user := User.with_is_active false loaded in
        let user := flush_user db_now loaded user in
        (inr user, mkStore (save_user user (users db)) (tasks db))
    end.

Definition activate_user (user_id : Z) (current_user : User.t)
    (db_now : datetime) (db : Store) : result User.t * Store :=
  match query_user user_id db with
  | None => (inl user_not_found, db)
  | Some loaded =>
      let user := User.with_is_active true loaded in
      let user := flush_user db_now loaded user in
      (inr user, mkStore (save_user user (users db)) (tasks db))
  end.

(** ** The rest of the routes and of the middleware *)

(** [str(n)] of an [int]: its decimal digits, after a minus sign when it is
    negative. *)
Definition str_of_int (n : Z) : str :=
  py (NilZero.string_of_int (Z.to_int n)).

(** The response schema [Token] of auth.py. *)
Record Token := mkToken {
  access_token : token;
  token_type : string
}.

(** The 401 of [login]; the [WWW-Authenticate] header that it and the 401
    of [get_current_user] carry is left out of [HTTPException]. *)
Definition incorrect_credentials : HTTPError :=
  HTTPException HTTP_401_UNAUTHORIZED "Incorrect username or password".

Definition credentials_exception : HTTPError :=
  HTTPException HTTP_401_UNAUTHORIZED "Could not validate credentials".

(** What a call gives: a value, or the [ValueError] of [int(..)] that no
    handler catches. *)
Inductive outcome (A : Type) :=
| Returned (a : A)
| ValueError.
Arguments Returned {A} a.
Arguments ValueError {A}.

Section Authentication.

Variable sign : string -> str -> gmap string claim -> str.
Variable pwd_verify : str -> str -> bool.
Variable settings : Settings.
(** [int(s)] of a string: [None] when it raises [ValueError]. *)
Variable int_of_str : str -> option Z.

(** [login], on the two fields of the form, at the reading [utcnow],
    [microsecond] of the clock. *)
Definition login (username password : str) (utcnow microsecond : Z)
    (db : Store) : result Token * Store :=
  let user := head (filter (fun u => User.username u = username) (users db)) in
  match user with
  | None => (inl incorrect_credentials, db)
  | Some user =>
      if negb (verify_password pwd_verify password
                 (User.hashed_password user)) then
        (inl incorrect_credentials, db)
      else
        let access_token :=
          create_access_token sign settings
            {["sub" := ClaimStr (str_of_int (User.id user))]} None
            utcnow microsecond in
        (inr (mkToken access_token "bearer"), db)
  end.

Definition get_current_user (t : token) (utcnow : datetime) (db : Store)
  : outcome (result User.t) :=
  let payload := decode_token sign settings int_of_str t utcnow in
  match payload with
  | None => Returned (inl credentials_exception)
  | Some payload =>
      let user_id := payload !! "sub" in
      match user_id with
      | None => Returned (inl credentials_exception)
      | Some user_id =>
          match int_of_claim int_of_str user_id with
          | None => ValueError
          | Some n =>
              let user := head (filter (fun u => User.id u = n) (users db)) in
              match user with
              | None => Returned (inl credentials_exception)
              | Some user => Returned (inr user)
              end
          end
      end
  end.

(** The dependency chain of a protected route: [get_current_user], then
    [get_current_active_user]. *)
Definition current_active_user (t : token) (utcnow : datetime) (db : Store)
  : outcome (result User.t) :=
  match get_current_user t utcnow db with
  | ValueError => ValueError
  | Returned (inl e) => Returned (inl e)
  | Returned (inr user) => Returned (get_current_active_user user)
  end.

End Authentication.

Module UserUpdate.
Record t := mk {
  full_name : option str;   (* default None *)
  email : option str        (* default None *)
}.
End UserUpdate.

(** The truth value of an optional string: [None] and the empty string are
    false. *)
Definition truthy (s : option str) : bool :=
  match s with
  | Some (_ :: _) => true
  | _ => false
  end.

Definition set_email (v : str) (u : User.t) : User.t :=
  User.mk (User.id u) v (User.username u) (User.hashed_password u)
          (User.full_name u) (User.is_active u) (User.is_admin u)
          (User.created_at u) (User.updated_at u).

Definition set_full_name (v : option str) (u : User.t) : User.t :=
  User.mk (User.id u) (User.email u) (User.username u)
          (User.hashed_password u) v (User.is_active u) (User.is_admin u)
          (User.created_at u) (User.updated_at u).

Definition email_taken : HTTPError :=
  HTTPException HTTP_400_BAD_REQUEST "Email already registered".

Section UserRoutes.

(** The field type [EmailStr], as for registration. *)
Variable email_str : str -> option str.

(** [update_current_user_profile]; a field of [user_data] is [None] when
    the body leaves it out; [current_user] is the row the session
    loaded. *)
Definition update_current_user_profile (user_data : UserUpdate.t)
    (current_user : User.t) (db_now : datetime) (db : Store)
  : result User.t * Store :=
  let validated : result (option str) :=
    match UserUpdate.email user_data with
    | None => inr None
    | Some raw =>
        match email_str raw with
        | None => inl RequestValidationError
        | Some email => inr (Some email)
        end
    end in
  match validated with
  | inl e => (inl e, db)
  | inr email =>
  let loaded := current_user in
  let checked : result User.t :=
    if truthy email &&
       negb (bool_decide (email = Some (User.email current_user))) then
      match head (filter (fun u => Some (User.email u) = email)
                         (users db)) with
      | Some _ => inl email_taken
      | None => inr (set_email (default [] email) current_user)
      end
    else inr current_user in
  match checked with
  | inl e => (inl e, db)
  | inr current_user =>
      let current_user :=
        if truthy (UserUpdate.full_name user_data)
        then set_full_name (UserUpdate.full_name user_data) current_user
        else current_user in
      let current_user := flush_user db_now loaded current_user in
      (inr current_user,
       mkStore (save_user current_user (users db)) (tasks db))
  end end.

End UserRoutes.

(** ** Predicates of the specification *)

(** Nothing for the tag pattern to match: no [<] has a [>] after it. *)
Fixpoint tag_free (s : str) : bool :=
  match s with
  | [] => true
  | c :: r => negb ((c =? LT)%N && existsb (N.eqb GT) r) && tag_free r
  end.

(** Every whitespace character is a space that follows no other
    whitespace ([after_space]: the character before [s] was one). *)
Fixpoint spaces_collapsed (after_space : bool) (s : str) : bool :=
  match s with
  | [] => true
  | c :: r =>
      if is_space c then
        (c =? SP)%N && negb after_space && spaces_collapsed true r
      else spaces_collapsed false r
  end.

(** The first character, if any, is not whitespace. *)
Definition starts_clean (s : str) : bool :=
  match s with
  | [] => true
  | c :: _ => negb (is_space c)
  end.

(** No leading and no trailing whitespace. *)
Definition trimmed (s : str) : bool := starts_clean s && starts_clean (rev s).

(** A character that is not whitespace. *)
Definition visible (c : char) : Prop := is_space c = false.

Global Instance visible_dec (c : char) : Decision (visible c).
Proof. unfold visible. apply _. Defined.

(** The tasks a user holds, in the order of the table. *)
Definition tasks_of (owner : User.t) (db : Store) : list Task.t :=
  filter (fun t => Task.owner_id t = User.id owner) (tasks db).

(** The primary key and the two unique columns of the users table. *)
Definition users_unique (db : Store) : Prop :=
  NoDup (map User.id (users db)) /\
  NoDup (map User.username (users db)) /\
  NoDup (map User.email (users db)).

(** The email of a profile update after the [EmailStr] step: [inr None]
    when the body has none, [inl] when the address is rejected. *)
Definition validated_email (email_str : str -> option str)
    (user_data : UserUpdate.t) : result (option str) :=
  match UserUpdate.email user_data with
  | None => inr None
  | Some raw =>
      match email_str raw with
      | None => inl RequestValidationError
      | Some email => inr (Some email)
      end
  end.

(** Claims that carry none of [iat], [nbf], [aud], [jti] and [at_hash],
    and no integer subject. *)
Definition plain_claims (data : gmap string claim) : Prop :=
  data !! "iat" = None /\ data !! "nbf" = None /\ data !! "aud" = None /\
  data !! "jti" = None /\ data !! "at_hash" = None /\
  forall n, data !! "sub" <> Some (ClaimInt n).

(** The number of tasks a user holds. *)
Definition task_count (owner : User.t) (db : Store) : nat :=
  length (filter (fun t => Task.owner_id t = User.id owner) (tasks db)).

(** The primary key of the tasks table. *)
Definition tasks_keyed (db : Store) : Prop := NoDup (map Task.id (tasks db)).

(** One [update_task] request that finds its row: the supplied fields and
    the two clock readings. *)
Record update_request := mkRequest {
  req_data : TaskUpdate.t;
  req_utcnow : datetime;
  req_db_now : datetime
}.

(** The row an update writes for the row it loaded. *)
Definition updated_row (req : update_request) (loaded : Task.t) : Task.t :=
  flush_task (req_db_now req) loaded
    (apply_update (req_data req) (req_utcnow req) loaded).

(** The row after a sequence of updates. *)
Fixpoint run_updates (task : Task.t) (reqs : list update_request) : Task.t :=
  match reqs with
  | [] => task
  | req :: reqs => run_updates (updated_row req task) reqs
  end.

(** Whether the row has status completed at some point of the sequence,
    its first and last states included. *)
Fixpoint ever_completed (task : Task.t) (reqs : list update_request) : bool :=
  bool_decide (Task.status task = COMPLETED) ||
  match reqs with
  | [] => false
  | req :: reqs => ever_completed (updated_row req task) reqs
  end.

(** ** Sample data *)

Definition alice : User.t :=
  User.mk 1 (py "alice@x.com") (py "alice") (py "hash-a") None
          true true 0 None.

Definition bob : User.t :=
  User.mk 2 (py "bob@x.com") (py "bob") (py "hash-b") None
          true false 0 None.

Definition alice_task : Task.t :=
  Task.mk 1 (py "Old") (Some (py "text")) TODO MEDIUM (Some 50)
          1 0 None None.

Definition sample_db : Store := mkStore [alice; bob] [alice_task].

Definition retitle : update_request :=
  mkRequest (TaskUpdate.mk (Some (py "New")) None None None None) 100 200.

Definition complete : update_request :=
  mkRequest (TaskUpdate.mk None None (Some COMPLETED) None None) 100 200.

(** Alice's task once completed, and the store with it. *)
Definition done_task : Task.t := updated_row complete alice_task.

Definition done_db : Store := mkStore [alice; bob] [done_task].

(** The two answers of [register_user] for a name or an address that is
    taken. *)
Definition is_conflict (e : HTTPError) : Prop :=
  e = HTTPException 400 "Username already registered" \/
  e = HTTPException 400 "Email already registered".

(** The store with every stored password hash replaced. *)
Definition rehash (f : User.t -> str) (db : Store) : Store :=
  mkStore (map (fun u => User.with_hashed_password (f u) u) (users db))
          (tasks db).

(** Toy instances of the primitives, to run the handlers. *)
Definition toy_hash (salt password : str) : str := salt ++ password.
Definition toy_sign (alg : string) (key : str) (claims : gmap string claim)
  : str :=
  key ++ match claims !! "sub" with Some (ClaimStr u) => u | _ => [] end.
Definition toy_settings : Settings := mkSettings (py "secret") "HS256" 30.

(** A toy instance of [EmailStr]: an address is accepted as it is when it
    has an at sign. *)
Definition toy_email_str (s : str) : option str :=
  if existsb (N.eqb AT) s then Some s else None.

Definition register_alice : UserCreate.t :=
  UserCreate.mk (py "alice") (py "alice@x.com") (py "TestPass123!") None.
Definition register_alice_weak : UserCreate.t :=
  UserCreate.mk (py "alice") (py "other@x.com") (py "weak") None.
Definition register_alice_again : UserCreate.t :=
  UserCreate.mk (py "alice") (py "other@x.com") (py "Other#Pass9") None.
Definition empty_db : Store := mkStore [] [].
Definition alice_registered : Store :=
  snd (register_user is_digit toy_hash toy_email_str register_alice
         (py "salt") 0 empty_db).

(** Toy instances of [pwd_context.verify] and of [int(..)] on decimal
    digits, to run the authentication chain. *)
Definition toy_verify (plain hashed : str) : bool :=
  bool_decide (hashed = py "salt" ++ plain).

Fixpoint digits_value (acc : Z) (s : str) : option Z :=
  match s with
  | [] => Some acc
  | c :: r =>
      if is_digit c then digits_value (10 * acc + Z.of_N (c - 48)) r
      else None
  end.

Definition toy_int (s : str) : option Z :=
  match s with
  | [] => None
  | c :: r =>
      if (c =? 45)%N then
        match r with
        | [] => None
        | _ => option_map Z.opp (digits_value 0 r)
        end
      else digits_value 0 s
  end.

(** * Properties *)

(** ** The handlers on concrete requests *)

Example validate_username_testuser :
  validate_username (py "testuser") = true /\
  validate_username (py "ab") = false /\
  validate_username (py "no space") = false.
Proof. repeat split. Qed.

Example validate_email_samples :
  validate_email (py "test@example.com") = true /\
  validate_email (py "a.b@x-y.co.uk") = true /\
  validate_email (py "invalidemail") = false /\
  validate_email (py "a@b.c") = false.
Proof. repeat split. Qed.

Example validate_password_samples :
  validate_password is_digit (py "TestPass123!") = true /\
  validate_password is_digit (py "weak") = false /\
  validate_password is_digit (py "testpass123!") = false.
Proof. repeat split. Qed.

Example sanitize_samples :
  sanitize_string (Some (py "  a <b>  c</b> <d  ")) = Some (py "a c <d") /\
  sanitize_string (Some (py "<<b>script> x")) = Some (py "script> x") /\
  sanitize_string (Some (py "a < b > c")) = Some (py "a c").
Proof. repeat split. Qed.

Example register_invalid_email :
  register_user is_digit toy_hash toy_email_str
    (UserCreate.mk (py "testuser") (py "invalidemail") (py "TestPass123!")
                   None) (py "salt") 0 empty_db =
  (inl RequestValidationError, empty_db).
Proof. reflexivity. Qed.

Example register_then_duplicate :
  fst (register_user is_digit toy_hash toy_email_str register_alice (py "salt") 0 empty_db)
    = inr (User.mk 1 (py "alice@x.com") (py "alice")
                   (py "saltTestPass123!") None true false 0 None) /\
  fst (register_user is_digit toy_hash toy_email_str register_alice (py "pepper") 1
         alice_registered)
    = inl (HTTPException 400 "Username already registered").
Proof. repeat split. Qed.

(** Create a task, delete it, then ask for it. *)
Example create_delete_get :
  let created :=
    create_task (TaskCreate.mk (py "Test <i>Task</i>") None HIGH None)
      bob 10 sample_db in
  fst created = inr (Task.mk 2 (py "Test Task") None TODO HIGH None
                             2 10 None None) /\
  fst (delete_task 2 bob (snd created)) = inr tt /\
  fst (get_task 2 bob (snd (delete_task 2 bob (snd created)))) =
    inl task_not_found.
Proof. repeat split. Qed.

Example list_filters :
  fst (get_tasks (Some TODO) None None None alice sample_db) =
    inr [alice_task] /\
  fst (get_tasks (Some COMPLETED) None None None alice sample_db) = inr [] /\
  fst (get_tasks None None (Some (-1)) None alice sample_db) =
    inl RequestValidationError /\
  fst (get_tasks None None None (Some 101) alice sample_db) =
    inl RequestValidationError.
Proof. repeat split. Qed.

(** ** Validators *)

Lemma at_dollar_spec (s : str) :
  at_dollar s = true <-> s = [] \/ s = [LF].
Proof.
  destruct s as [|c [|d r]]; simpl; split; try (intuition congruence).
  - intros H%N.eqb_eq. subst; auto.
  - intros [H|H]; [discriminate | injection H as ->]. reflexivity.
Qed.

(** What [cls+$] accepts: a non-empty run of the class, with or without
    one newline after it. *)
Lemma match_plus_dollar_spec (cls : char -> bool) (s : str) :
  match_plus_dollar cls s = true <->
  exists p, p <> [] /\ forallb cls p = true /\ (s = p \/ s = p ++ [LF]).
Proof.
  induction s as [|c r IH]; simpl.
  - split; [discriminate|].
    intros (p & Hp & _ & [H|H]); [congruence|].
    destruct p; simpl in H; discriminate.
  - rewrite andb_true_iff, orb_true_iff, IH, at_dollar_spec. split.
    + intros (Hc & [(p & Hp & Hall & Hs) | Hs]).
      * exists (c :: p). simpl. rewrite Hc, Hall.
        repeat split; [discriminate|]. destruct Hs as [->| ->]; auto.
      * exists [c]. simpl. rewrite Hc.
        repeat split; [discriminate|]. destruct Hs as [->| ->]; auto.
    + intros (p & Hp & Hall & Hs).
      destruct p as [|c' p]; [congruence|]. simpl in Hall.
      apply andb_true_iff in Hall as [Hc' Hall].
      assert (c = c' /\ (r = p \/ r = p ++ [LF])) as [-> Hr].
      { destruct Hs as [Hs|Hs]; simpl in Hs; injection Hs as -> ->; auto. }
      split; [assumption|].
      destruct p as [|d p].
      * right. destruct Hr as [->| ->]; auto.
      * left. exists (d :: p). repeat split; [discriminate | assumption | assumption].
Qed.

(** The exact domain of [validate_username]. *)
Lemma validate_username_spec (s : str) :
  validate_username s = true <->
  (3 <= length s <= 50)%nat /\
  exists p, p <> [] /\ forallb is_word p = true /\ (s = p \/ s = p ++ [LF]).
Proof.
  unfold validate_username.
  destruct (Nat.leb_spec0 3 (length s)) as [H3|H3];
    destruct (Nat.leb_spec0 (length s) 50) as [H50|H50];
    cbn [negb andb]; rewrite ?match_plus_dollar_spec;
    split; try discriminate; try (intros [? ?]; lia); tauto.
Qed.

(** A username within the length bounds and the character set is
    accepted. *)
Lemma validate_username_complete (s : str) :
  (3 <= length s <= 50)%nat -> forallb is_word s = true ->
  validate_username s = true.
Proof.
  intros Hlen Hall. apply validate_username_spec. split; [assumption|].
  exists s. repeat split; auto. intros ->. simpl in Hlen. lia.
Qed.

(** An accepted username has between 3 and 50 characters. *)
Lemma validate_username_length (s : str) :
  validate_username s = true -> (3 <= length s <= 50)%nat.
Proof. intros H%validate_username_spec. tauto. Qed.

(** C7 (failing input): the four characters [abc] and a newline are
    accepted as a username although the newline is outside the character
    set [A-Za-z0-9_]: the [$] of the pattern also matches before a final
    newline. *)
Theorem validate_username_accepts_trailing_newline :
  let s := py "abc" ++ [LF] in
  validate_username s = true /\
  length s = 4%nat /\
  forallb is_word s = false /\
  is_word LF = false.
Proof. repeat split. Qed.

(** *** [sanitize_string] *)

Lemma existsb_sublist {A} (f : A -> bool) (l1 l2 : list A) :
  sublist l1 l2 -> existsb f l1 = true -> existsb f l2 = true.
Proof.
  induction 1 as [|x l1 l2 _ IH|x l1 l2 _ IH]; simpl; auto.
  - rewrite !orb_true_iff. intuition.
  - rewrite orb_true_iff. auto.
Qed.

Lemma tag_free_sublist (t s : str) :
  sublist t s -> tag_free s = true -> tag_free t = true.
Proof.
  induction 1 as [|x l1 l2 Hsub IH|x l1 l2 _ IH]; simpl; auto.
  - rewrite !andb_true_iff, !negb_true_iff. intros [Hx Hl2].
    split; [|auto].
    destruct (x =? LT)%N; [|reflexivity]. simpl in *.
    destruct (existsb (N.eqb GT) l1) eqn:E; [|reflexivity].
    apply (existsb_sublist _ _ _ Hsub) in E.
    unfold char in *. rewrite E in Hx. discriminate.
  - rewrite andb_true_iff. intros [_ Hl2]. auto.
Qed.

Lemma sub_tags_sublist (s : str) (b : bool) : sublist (sub_tags b s) s.
Proof.
  revert b. induction s as [|c r IH]; intros b; simpl; [constructor|].
  destruct b.
  - destruct (c =? GT)%N; apply sublist_cons, IH.
  - destruct ((c =? LT)%N && existsb (N.eqb GT) r).
    + apply sublist_cons, IH.
    + apply sublist_skip, IH.
Qed.

(** One pass of the tag substitution leaves no tag. *)
Lemma tag_free_sub_tags (s : str) (b : bool) : tag_free (sub_tags b s) = true.
Proof.
  revert b. induction s as [|c r IH]; intros b; simpl; [reflexivity|].
  destruct b.
  - destruct (c =? GT)%N; apply IH.
  - destruct ((c =? LT)%N && existsb (N.eqb GT) r) eqn:E; [apply IH|].
    simpl. rewrite IH, andb_true_r, negb_true_iff.
    destruct (c =? LT)%N; [|reflexivity]. simpl in *.
    destruct (existsb (N.eqb GT) (sub_tags false r)) eqn:E'; [|reflexivity].
    apply (existsb_sublist _ _ _ (sub_tags_sublist r false)) in E'.
    unfold char in *. rewrite E' in E. discriminate.
Qed.

Lemma sub_tags_tag_free (s : str) : tag_free s = true -> sub_tags false s = s.
Proof.
  induction s as [|c r IH]; simpl; [reflexivity|].
  rewrite andb_true_iff, negb_true_iff. intros [Hc Hr].
  unfold char in *. rewrite Hc. now rewrite IH.
Qed.

Lemma is_space_not_angle (c : char) :
  is_space c = true -> (c =? LT)%N = false /\ (GT =? c)%N = false.
Proof.
  intros Hc. split; apply N.eqb_neq; intros E;
    [rewrite E in Hc | rewrite <- E in Hc]; vm_compute in Hc; discriminate.
Qed.

Lemma existsb_GT_sub_spaces (s : str) (b : bool) :
  existsb (N.eqb GT) (sub_spaces b s) = existsb (N.eqb GT) s.
Proof.
  revert b. induction s as [|c r IH]; intros b; [reflexivity|].
  cbn [sub_spaces existsb].
  destruct (is_space c) eqn:Hc.
  - destruct (is_space_not_angle c Hc) as [_ ->].
    destruct b; cbn [existsb]; rewrite IH; reflexivity.
  - cbn [existsb]. now rewrite IH.
Qed.

Lemma tag_free_sub_spaces (s : str) (b : bool) :
  tag_free (sub_spaces b s) = tag_free s.
Proof.
  revert b. induction s as [|c r IH]; intros b; [reflexivity|].
  cbn [sub_spaces tag_free].
  destruct (is_space c) eqn:Hc.
  - destruct (is_space_not_angle c Hc) as [-> _].
    destruct b; cbn [tag_free andb negb]; rewrite IH; reflexivity.
  - cbn [tag_free]. now rewrite IH, existsb_GT_sub_spaces.
Qed.

(** [lstrip] removes a prefix of whitespace, [rstrip] a suffix. *)
Lemma lstrip_split (s : str) :
  exists w, s = w ++ lstrip s /\ forallb is_space w = true.
Proof.
  induction s as [|c r (w & Hw & Hall)]; simpl.
  - now exists [].
  - destruct (is_space c) eqn:Hc.
    + exists (c :: w). simpl. rewrite Hc, Hall, <- Hw. split; reflexivity.
    + now exists [].
Qed.

Lemma rstrip_split (s : str) :
  exists w, s = rstrip s ++ w /\ forallb is_space w = true.
Proof.
  unfold rstrip. destruct (lstrip_split (rev s)) as (w & Hw & Hall).
  exists (rev w). split.
  - rewrite <- rev_app_distr, <- Hw. now rewrite rev_involutive.
  - rewrite forallb_forall in *. intros x Hx. apply Hall.
    now apply in_rev.
Qed.

Lemma lstrip_sublist (s : str) : sublist (lstrip s) s.
Proof.
  destruct (lstrip_split s) as (w & Hw & _). rewrite Hw at 2.
  now apply sublist_inserts_l.
Qed.

Lemma rstrip_sublist (s : str) : sublist (rstrip s) s.
Proof.
  destruct (rstrip_split s) as (w & Hw & _). rewrite Hw at 2.
  now apply sublist_inserts_r.
Qed.

Lemma starts_clean_lstrip (s : str) : starts_clean (lstrip s) = true.
Proof.
  induction s as [|c r IH]; simpl; [reflexivity|].
  destruct (is_space c) eqn:Hc; [assumption|]. simpl. now rewrite Hc.
Qed.

Lemma lstrip_starts_clean (s : str) : starts_clean s = true -> lstrip s = s.
Proof.
  destruct s as [|c r]; simpl; [reflexivity|].
  rewrite negb_true_iff. now intros ->.
Qed.

Lemma starts_clean_rstrip (s : str) :
  starts_clean s = true -> starts_clean (rstrip s) = true.
Proof.
  destruct (rstrip_split s) as (w & Hw & Hall).
  destruct (rstrip s) as [|c t]; [reflexivity|].
  rewrite Hw. simpl. auto.
Qed.

Lemma rstrip_fixed (s : str) :
  starts_clean (rev s) = true -> rstrip s = s.
Proof.
  intros H. unfold rstrip. rewrite lstrip_starts_clean by assumption.
  apply rev_involutive.
Qed.

Lemma trimmed_strip (s : str) : trimmed (strip s) = true.
Proof.
  unfold trimmed, strip. rewrite starts_clean_rstrip.
  - unfold rstrip. rewrite rev_involutive. apply starts_clean_lstrip.
  - apply starts_clean_lstrip.
Qed.

Lemma strip_trimmed (s : str) : trimmed s = true -> strip s = s.
Proof.
  unfold trimmed, strip. rewrite andb_true_iff. intros [H1 H2].
  rewrite lstrip_starts_clean by assumption. now apply rstrip_fixed.
Qed.

Lemma spaces_collapsed_weaken (s : str) :
  spaces_collapsed true s = true -> spaces_collapsed false s = true.
Proof.
  destruct s as [|c r]; simpl; [reflexivity|].
  destruct (is_space c); [|auto]. rewrite andb_false_r. discriminate.
Qed.

Lemma spaces_collapsed_sub_spaces (s : str) (b : bool) :
  spaces_collapsed b (sub_spaces b s) = true.
Proof.
  revert b. induction s as [|c r IH]; intros b; simpl; [reflexivity|].
  destruct (is_space c) eqn:Hc.
  - destruct b; [apply IH|]. simpl. apply IH.
  - simpl. rewrite Hc. apply IH.
Qed.

Lemma sub_spaces_collapsed (s : str) (b : bool) :
  spaces_collapsed b s = true -> sub_spaces b s = s.
Proof.
  revert b. induction s as [|c r IH]; intros b; simpl; [reflexivity|].
  destruct (is_space c) eqn:Hc.
  - rewrite !andb_true_iff, negb_true_iff.
    intros [[Hsp ->] Hr]. apply N.eqb_eq in Hsp. subst c.
    now rewrite IH.
  - intros Hr. now rewrite IH.
Qed.

Lemma spaces_collapsed_lstrip (s : str) (b : bool) :
  spaces_collapsed b s = true -> spaces_collapsed false (lstrip s) = true.
Proof.
  revert b. induction s as [|c r IH]; intros b; simpl; [reflexivity|].
  destruct (is_space c) eqn:Hc.
  - rewrite !andb_true_iff. intros [_ Hr]. eauto.
  - simpl. now rewrite Hc.
Qed.

Lemma spaces_collapsed_prefix (p w : str) (b : bool) :
  spaces_collapsed b (p ++ w) = true -> spaces_collapsed b p = true.
Proof.
  revert b. induction p as [|c r IH]; intros b; simpl; [reflexivity|].
  destruct (is_space c); [|apply IH].
  rewrite !andb_true_iff. intros [H Hr]. split; [assumption|]. eauto.
Qed.

Lemma spaces_collapsed_rstrip (s : str) (b : bool) :
  spaces_collapsed b s = true -> spaces_collapsed b (rstrip s) = true.
Proof.
  destruct (rstrip_split s) as (w & Hw & _). rewrite Hw at 1.
  apply spaces_collapsed_prefix.
Qed.

(** What one application of [sanitize] establishes. *)
Lemma sanitize_clean (s : str) :
  tag_free (sanitize s) = true /\
  spaces_collapsed false (sanitize s) = true /\
  trimmed (sanitize s) = true.
Proof.
  unfold sanitize. repeat split.
  - apply (tag_free_sublist _ (sub_spaces false (sub_tags false s))).
    + unfold strip. etransitivity; [apply rstrip_sublist | apply lstrip_sublist].
    + rewrite tag_free_sub_spaces. apply tag_free_sub_tags.
  - unfold strip. apply spaces_collapsed_rstrip.
    apply (spaces_collapsed_lstrip _ false), spaces_collapsed_sub_spaces.
  - apply trimmed_strip.
Qed.

(** [sanitize] leaves a clean string as it is. *)
Lemma sanitize_fixed (s : str) :
  tag_free s = true -> spaces_collapsed false s = true -> trimmed s = true ->
  sanitize s = s.
Proof.
  intros Ht Hs Hr. unfold sanitize.
  now rewrite sub_tags_tag_free, sub_spaces_collapsed, strip_trimmed.
Qed.

(** C10: [sanitize_string] preserves [None] and is idempotent: for every
    string, one application leaves no tag to match, no whitespace other
    than single spaces between other characters, and no leading or trailing
    whitespace, and a second application returns the same string. *)
Theorem sanitize_string_idempotent :
  sanitize_string None = None /\
  forall s : str,
    sanitize_string (sanitize_string (Some s)) = sanitize_string (Some s) /\
    exists r, sanitize_string (Some s) = Some r /\
      tag_free r = true /\ spaces_collapsed false r = true /\
      trimmed r = true.
Proof.
  split; [reflexivity|]. intros s. simpl.
  destruct (sanitize_clean s) as (Ht & Hs & Hr). split.
  - f_equal. now apply sanitize_fixed.
  - exists (sanitize s). auto.
Qed.

(** ** Task store *)

Lemma keyed_inj {A} (f : A -> Z) (l : list A) (x y : A) :
  NoDup (map f l) -> x ∈ l -> y ∈ l -> f x = f y -> x = y.
Proof.
  induction l as [|a l IH]; simpl; [intros _ H; inversion H|].
  rewrite NoDup_cons, !elem_of_cons.
  intros [Ha Hl] [->|Hx] [->|Hy] Hf; auto; exfalso; apply Ha.
  - rewrite Hf, list_elem_of_In. apply in_map.
    exact (proj1 (list_elem_of_In _ _) Hy).
  - rewrite <- Hf, list_elem_of_In. apply in_map.
    exact (proj1 (list_elem_of_In _ _) Hx).
Qed.

Lemma next_id_fresh (ids : list Z) (x : Z) : x ∈ ids -> x < next_id ids.
Proof.
  unfold next_id. induction ids as [|y ids IH]; simpl.
  - intros H. inversion H.
  - rewrite elem_of_cons. intros [->|H]; [lia|]. specialize (IH H). lia.
Qed.

Lemma NoDup_map_sublist {A} (f : A -> Z) (l1 l2 : list A) :
  sublist l1 l2 -> NoDup (map f l2) -> NoDup (map f l1).
Proof.
  induction 1 as [|x l1 l2 Hsub IH|x l1 l2 _ IH]; simpl; auto.
  - rewrite !NoDup_cons. intros [Hx Hl]. split; [|auto].
    intros Hin. apply Hx.
    apply list_elem_of_In, in_map_iff in Hin as (y & Hy & Hin).
    apply list_elem_of_In, in_map_iff. exists y. split; [assumption|].
    apply list_elem_of_In. eapply elem_of_sublist; [|exact Hsub].
    now apply list_elem_of_In.
  - rewrite NoDup_cons. intros [_ Hl]. auto.
Qed.

(** The handlers keep the primary key of the tasks table. *)
Lemma tasks_keyed_preserved (db : Store) :
  tasks_keyed db ->
  (forall data u db_now, tasks_keyed (snd (create_task data u db_now db))) /\
  (forall task_id data u utcnow db_now,
     tasks_keyed (snd (update_task task_id data u utcnow db_now db))) /\
  (forall task_id u, tasks_keyed (snd (delete_task task_id u db))).
Proof.
  unfold tasks_keyed. intros Hkey. split; [|split].
  - intros data u db_now. simpl. rewrite map_app. simpl.
    apply NoDup_app. split; [assumption|]. split; [|apply NoDup_singleton].
    intros x Hx. rewrite list_elem_of_singleton. intros ->.
    apply next_id_fresh in Hx. lia.
  - intros task_id data u utcnow db_now. unfold update_task.
    destruct (query_task task_id u db) as [loaded|]; [|assumption].
    simpl. unfold save_task. rewrite map_map.
    erewrite map_ext; [exact Hkey|].
    intros r. simpl. destruct (decide _) as [E|_]; congruence.
  - intros task_id u. unfold delete_task.
    destruct (query_task task_id u db) as [loaded|]; [|assumption].
    simpl. eapply NoDup_map_sublist; [apply sublist_filter | assumption].
Qed.

Lemma query_task_None (task_id : Z) (u : User.t) (db : Store) :
  query_task task_id u db = None <->
  forall t, t ∈ tasks db ->
    ~ (Task.id t = task_id /\ Task.owner_id t = User.id u).
Proof.
  unfold query_task. rewrite head_None. split.
  - intros H t Ht HP.
    eapply filter_nil_not_elem_of; [exact H | exact HP | exact Ht].
  - intros H. destruct (filter _ _) as [|t l] eqn:E; [reflexivity|].
    assert (Ht : t ∈ filter (fun t => Task.id t = task_id /\
                             Task.owner_id t = User.id u) (tasks db)).
    { rewrite E. left. }
    apply list_elem_of_filter in Ht as [HP Ht]. destruct (H t Ht HP).
Qed.

Lemma query_task_Some (task_id : Z) (u : User.t) (db : Store) (t : Task.t) :
  query_task task_id u db = Some t ->
  t ∈ tasks db /\ Task.id t = task_id /\ Task.owner_id t = User.id u.
Proof.
  unfold query_task. intros H%head_Some_elem_of.
  apply list_elem_of_filter in H. tauto.
Qed.

Lemma not_found_leaves_store (task_id : Z) (u : User.t) (db : Store) :
  query_task task_id u db = None ->
  get_task task_id u db = (inl task_not_found, db) /\
  (forall data utcnow db_now,
     update_task task_id data u utcnow db_now db = (inl task_not_found, db)) /\
  delete_task task_id u db = (inl task_not_found, db).
Proof.
  intros H. unfold get_task, update_task, delete_task. now rewrite H.
Qed.

(** C1: a task of user A is not found by the get, update and delete of
    another user B; the answer is the one B gets in a store with no task of
    that id, and the store, the task with it, is left as it was. *)
Theorem cross_owner_not_found
    (db : Store) (A B : User.t) (t : Task.t)
    (data : TaskUpdate.t) (utcnow db_now : datetime) :
  tasks_keyed db ->
  t ∈ tasks db ->
  Task.owner_id t = User.id A ->
  User.id A <> User.id B ->
  get_task (Task.id t) B db = (inl task_not_found, db) /\
  update_task (Task.id t) data B utcnow db_now db = (inl task_not_found, db) /\
  delete_task (Task.id t) B db = (inl task_not_found, db) /\
  status_of task_not_found = 404 /\
  forall db' : Store,
    (forall t', t' ∈ tasks db' -> Task.id t' <> Task.id t) ->
    fst (get_task (Task.id t) B db') = fst (get_task (Task.id t) B db) /\
    fst (update_task (Task.id t) data B utcnow db_now db') =
      fst (update_task (Task.id t) data B utcnow db_now db) /\
    fst (delete_task (Task.id t) B db') = fst (delete_task (Task.id t) B db).
Proof.
  intros Hkey Ht HA HAB.
  assert (Hq : query_task (Task.id t) B db = None).
  { apply query_task_None. intros t' Ht' [Hid Hown].
    assert (t' = t) as -> by (eapply keyed_inj; eauto).
    congruence. }
  destruct (not_found_leaves_store _ _ _ Hq) as (Hg & Hu & Hd).
  rewrite Hg, Hu, Hd. repeat split.
  all: assert (Hq' : query_task (Task.id t) B db' = None)
    by (apply query_task_None; intros t' Ht' [Hid _]; eapply H; eauto).
  all: destruct (not_found_leaves_store _ _ _ Hq') as (Hg' & Hu' & Hd').
  all: now rewrite ?Hg', ?Hu', ?Hd'.
Qed.

Lemma Query_in_bounds (default v : Z) (ge le : option Z) :
  match ge with Some b => b <= v | None => True end ->
  match le with Some b => v <= b | None => True end ->
  Query default ge le (Some v) = inr v.
Proof.
  intros Hge Hle. unfold Query.
  destruct ge as [b|]; [destruct (Z.ltb_spec v b); [lia|]|];
    (destruct le as [b'|]; [destruct (Z.ltb_spec b' v); [lia|]|]);
    reflexivity.
Qed.

(** C5: without a status or priority filter, the listing with skip k and
    limit m answers max(0, min(m, N - k)) tasks of the N the caller holds,
    all of them owned by the caller; omitted parameters stand for skip 0
    and limit 10. *)
Theorem get_tasks_pagination (db : Store) (u : User.t) (k m : Z) :
  0 <= k -> 1 <= m <= 100 ->
  (exists l,
     get_tasks None None (Some k) (Some m) u db = (inr l, db) /\
     Z.of_nat (length l) =
       Z.max 0 (Z.min m (Z.of_nat (task_count u db) - k)) /\
     Forall (fun t => Task.owner_id t = User.id u) l /\
     sublist l (tasks db)) /\
  get_tasks None None None None u db =
    get_tasks None None (Some 0) (Some 10) u db.
Proof.
  intros Hk Hm. split; [|reflexivity].
  unfold get_tasks.
  rewrite (Query_in_bounds 0 k (Some 0) None) by (simpl; auto).
  rewrite (Query_in_bounds 10 m (Some 1) (Some 100)) by (simpl; lia).
  eexists. split; [reflexivity|]. repeat split.
  - rewrite length_take, length_drop. unfold task_count. lia.
  - apply Forall_take, Forall_drop, Forall_forall.
    intros t Ht. apply list_elem_of_filter in Ht. tauto.
  - etransitivity; [apply sublist_take|].
    etransitivity; [apply sublist_drop|]. apply sublist_filter.
Qed.

(** *** Updates *)

(** The flush changes no column but [updated_at]. *)
Lemma flush_task_columns (db_now : datetime) (loaded task : Task.t) :
  let t' := flush_task db_now loaded task in
  Task.id t' = Task.id task /\
  Task.title t' = Task.title task /\
  Task.description t' = Task.description task /\
  Task.status t' = Task.status task /\
  Task.priority t' = Task.priority task /\
  Task.due_date t' = Task.due_date task /\
  Task.owner_id t' = Task.owner_id task /\
  Task.created_at t' = Task.created_at task /\
  Task.completed_at t' = Task.completed_at task.
Proof.
  unfold flush_task. destruct (decide (task = loaded)) as [->|_]; simpl; tauto.
Qed.

Lemma apply_update_completed_at
    (data : TaskUpdate.t) (utcnow : datetime) (task : Task.t) :
  Task.completed_at (apply_update data utcnow task) =
  if decide (TaskUpdate.status data = Some COMPLETED) then Some utcnow
  else Task.completed_at task.
Proof.
  destruct data as [ti de [[]|] pr du]; destruct ti, de, pr, du; reflexivity.
Qed.

Lemma apply_update_status
    (data : TaskUpdate.t) (utcnow : datetime) (task : Task.t) :
  Task.status (apply_update data utcnow task) =
  match TaskUpdate.status data with
  | Some v => v
  | None => Task.status task
  end.
Proof.
  destruct data as [ti de [[]|] pr du]; destruct ti, de, pr, du; reflexivity.
Qed.

Lemma updated_row_completed_at (req : update_request) (loaded : Task.t) :
  Task.completed_at (updated_row req loaded) =
  if decide (TaskUpdate.status (req_data req) = Some COMPLETED)
  then Some (req_utcnow req)
  else Task.completed_at loaded.
Proof.
  unfold updated_row.
  destruct (flush_task_columns (req_db_now req) loaded
              (apply_update (req_data req) (req_utcnow req) loaded))
    as (_ & _ & _ & _ & _ & _ & _ & _ & ->).
  apply apply_update_completed_at.
Qed.

Lemma updated_row_status (req : update_request) (loaded : Task.t) :
  Task.status (updated_row req loaded) =
  match TaskUpdate.status (req_data req) with
  | Some v => v
  | None => Task.status loaded
  end.
Proof.
  unfold updated_row.
  destruct (flush_task_columns (req_db_now req) loaded
              (apply_update (req_data req) (req_utcnow req) loaded))
    as (_ & _ & _ & -> & _).
  apply apply_update_status.
Qed.

Lemma update_task_found (task_id : Z) (u : User.t) (db : Store)
    (loaded : Task.t) (req : update_request) :
  query_task task_id u db = Some loaded ->
  update_task task_id (req_data req) u (req_utcnow req) (req_db_now req) db =
  (inr (updated_row req loaded),
   mkStore (users db) (save_task (updated_row req loaded) (tasks db))).
Proof. intros H. unfold update_task. now rewrite H. Qed.

(** Rows with another primary key are not written. *)
Lemma save_task_other (task r : Task.t) (rows : list Task.t) :
  r ∈ rows -> Task.id r <> Task.id task -> r ∈ save_task task rows.
Proof.
  intros Hr Hne. unfold save_task.
  apply list_elem_of_In, in_map_iff. exists r.
  split; [|now apply list_elem_of_In].
  destruct (decide (Task.id r = Task.id task)); [contradiction | reflexivity].
Qed.

Lemma ever_completed_head (task : Task.t) (reqs : list update_request) :
  Task.status task = COMPLETED -> ever_completed task reqs = true.
Proof.
  intros H. destruct reqs; simpl; rewrite bool_decide_eq_true_2; auto.
Qed.

(** A row with status completed has a completion time; updates keep it so. *)
Lemma completed_has_time_updated (req : update_request) (task : Task.t) :
  (Task.status task = COMPLETED -> is_Some (Task.completed_at task)) ->
  Task.status (updated_row req task) = COMPLETED ->
  is_Some (Task.completed_at (updated_row req task)).
Proof.
  intros Hinv. rewrite updated_row_status, updated_row_completed_at.
  destruct (TaskUpdate.status (req_data req)) as [v|] eqn:E.
  - intros ->. rewrite decide_True by reflexivity. eauto.
  - rewrite decide_False by discriminate. exact Hinv.
Qed.

(** The invariant behind the lifecycle of [completed_at]. *)
Lemma completed_at_invariant (reqs : list update_request) (task : Task.t) :
  (Task.status task = COMPLETED -> is_Some (Task.completed_at task)) ->
  (is_Some (Task.completed_at (run_updates task reqs)) <->
   is_Some (Task.completed_at task) \/ ever_completed task reqs = true).
Proof.
  revert task. induction reqs as [|req reqs IH]; intros task Hinv; simpl.
  - rewrite orb_false_r, bool_decide_eq_true. tauto.
  - rewrite orb_true_iff, bool_decide_eq_true.
    rewrite (IH _ (completed_has_time_updated req task Hinv)).
    pose proof (updated_row_completed_at req task) as Hc.
    pose proof (updated_row_status req task) as Hs.
    pose proof (ever_completed_head (updated_row req task) reqs) as Hh.
    destruct (decide (TaskUpdate.status (req_data req) = Some COMPLETED))
      as [E|E].
    + rewrite E in Hs. rewrite Hc. intuition eauto.
    + rewrite Hc. tauto.
Qed.

(** C4 (counterexample): a task that is completed, with completion time
    100, is sent the status completed again at clock reading 500: the
    status does not change, so nothing transitions, and yet
    [completed_at] is set to 500. *)
Lemma update_task_restamps_completed_at :
  query_task 1 alice done_db = Some done_task /\
  Task.status done_task = COMPLETED /\
  Task.completed_at done_task = Some 100 /\
  TaskUpdate.status (req_data complete) = Some COMPLETED /\
  fst (update_task 1 (req_data complete) alice 500 600 done_db) =
    inr (Task.mk 1 (py "Old") (Some (py "text")) COMPLETED MEDIUM (Some 50)
                 1 0 (Some 600) (Some 500)) /\
  Task.completed_at (updated_row (mkRequest (req_data complete) 500 600)
                       done_task) <> Task.completed_at done_task.
Proof. repeat split. discriminate. Qed.

(** C4 (amended): a created task has status todo and no completion time;
    an update that finds its row sets [completed_at] to the current time
    exactly when the supplied status is completed, whatever the status of
    the row was, and otherwise leaves it, also when the status moves away
    from completed; get, list and delete write no row; so along the
    updates of a created task [completed_at] is set if and only if the
    task had status completed at some point. *)
Theorem completed_at_lifecycle :
  (forall data u db_now db,
     exists t,
       create_task data u db_now db =
         (inr t, mkStore (users db) (tasks db ++ [t])) /\
       Task.status t = TODO /\ Task.completed_at t = None) /\
  (forall task_id u db loaded req,
     query_task task_id u db = Some loaded ->
     exists t',
       update_task task_id (req_data req) u (req_utcnow req) (req_db_now req)
         db = (inr t', mkStore (users db) (save_task t' (tasks db))) /\
       t' = updated_row req loaded /\
       Task.completed_at t' =
         (if decide (TaskUpdate.status (req_data req) = Some COMPLETED)
          then Some (req_utcnow req) else Task.completed_at loaded) /\
       forall r, r ∈ tasks db -> Task.id r <> Task.id t' ->
                 r ∈ save_task t' (tasks db)) /\
  (forall task_id u db, snd (get_task task_id u db) = db) /\
  (forall st pr skip limit u db, snd (get_tasks st pr skip limit u db) = db) /\
  (forall task_id u db,
     sublist (tasks (snd (delete_task task_id u db))) (tasks db)) /\
  (forall t0 reqs,
     Task.status t0 = TODO -> Task.completed_at t0 = None ->
     (is_Some (Task.completed_at (run_updates t0 reqs)) <->
      ever_completed t0 reqs = true)).
Proof.
  split; [|split; [|split; [|split; [|split]]]].
  - intros data u db_now db. eexists. repeat split.
  - intros task_id u db loaded req Hq. eexists.
    split; [apply update_task_found; exact Hq|].
    split; [reflexivity|]. split; [apply updated_row_completed_at|].
    intros r. apply save_task_other.
  - intros task_id u db. unfold get_task.
    destruct (query_task _ _ _); reflexivity.
  - intros st pr skip limit u db. unfold get_tasks.
    destruct (Query 0 _ _ _); [reflexivity|].
    destruct (Query 10 _ _ _); reflexivity.
  - intros task_id u db. unfold delete_task.
    destruct (query_task _ _ _); simpl; [apply sublist_filter | reflexivity].
  - intros t0 reqs Hs Hc.
    rewrite completed_at_invariant by (rewrite Hs; discriminate).
    rewrite Hc. split; [|now right].
    intros [[x Hx]|Hx]; [discriminate | assumption].
Qed.

(** The assignments of an update, column by column. *)
Lemma apply_update_frame
    (data : TaskUpdate.t) (utcnow : datetime) (task : Task.t) :
  let t' := apply_update data utcnow task in
  Task.id t' = Task.id task /\
  Task.owner_id t' = Task.owner_id task /\
  Task.created_at t' = Task.created_at task /\
  Task.updated_at t' = Task.updated_at task /\
  Task.title t' =
    match TaskUpdate.title data with
    | Some v => sanitize v | None => Task.title task end /\
  Task.description t' =
    match TaskUpdate.description data with
    | Some v => Some (sanitize v) | None => Task.description task end /\
  Task.priority t' =
    match TaskUpdate.priority data with
    | Some v => v | None => Task.priority task end /\
  Task.due_date t' =
    match TaskUpdate.due_date data with
    | Some v => Some v | None => Task.due_date task end.
Proof.
  destruct data as [ti de [[]|] pr du]; destruct ti, de, pr, du;
    repeat split.
Qed.

Lemma flush_task_updated_at (db_now : datetime) (loaded task : Task.t) :
  Task.updated_at (flush_task db_now loaded task) =
  if decide (task = loaded) then Task.updated_at loaded else Some db_now.
Proof. unfold flush_task. destruct (decide _); reflexivity. Qed.

(** What an update that finds its row writes. *)
Lemma updated_row_frame (req : update_request) (loaded : Task.t) :
  let data := req_data req in
  let t' := updated_row req loaded in
  Task.id t' = Task.id loaded /\
  Task.owner_id t' = Task.owner_id loaded /\
  Task.created_at t' = Task.created_at loaded /\
  Task.title t' =
    match TaskUpdate.title data with
    | Some v => sanitize v | None => Task.title loaded end /\
  Task.description t' =
    match TaskUpdate.description data with
    | Some v => Some (sanitize v) | None => Task.description loaded end /\
  Task.status t' =
    match TaskUpdate.status data with
    | Some v => v | None => Task.status loaded end /\
  Task.priority t' =
    match TaskUpdate.priority data with
    | Some v => v | None => Task.priority loaded end /\
  Task.due_date t' =
    match TaskUpdate.due_date data with
    | Some v => Some v | None => Task.due_date loaded end /\
  Task.completed_at t' =
    (if decide (TaskUpdate.status data = Some COMPLETED)
     then Some (req_utcnow req) else Task.completed_at loaded) /\
  Task.updated_at t' =
    (if decide (apply_update data (req_utcnow req) loaded = loaded)
     then Task.updated_at loaded else Some (req_db_now req)).
Proof.
  cbv zeta.
  rewrite updated_row_status, updated_row_completed_at.
  unfold updated_row. rewrite flush_task_updated_at.
  destruct (flush_task_columns (req_db_now req) loaded
              (apply_update (req_data req) (req_utcnow req) loaded))
    as (-> & -> & -> & _ & -> & -> & -> & -> & _).
  destruct (apply_update_frame (req_data req) (req_utcnow req) loaded)
    as (-> & -> & -> & _ & -> & -> & -> & ->).
  repeat split.
Qed.

(** Updates never write [None] to a description or a due date. *)
Lemma run_updates_keeps_set (reqs : list update_request) (task : Task.t) :
  (is_Some (Task.description task) ->
   is_Some (Task.description (run_updates task reqs))) /\
  (is_Some (Task.due_date task) ->
   is_Some (Task.due_date (run_updates task reqs))).
Proof.
  revert task. induction reqs as [|req reqs IH]; intros task; simpl;
    [tauto|].
  destruct (IH (updated_row req task)) as [IHd IHu].
  destruct (updated_row_frame req task)
    as (_ & _ & _ & _ & Hd & _ & _ & Hu & _).
  split; intros Hset.
  - apply IHd. rewrite Hd.
    destruct (TaskUpdate.description (req_data req)); eauto.
  - apply IHu. rewrite Hu.
    destruct (TaskUpdate.due_date (req_data req)); eauto.
Qed.

(** C9 (counterexample): an update that supplies only a title also changes
    [updated_at], a field that was not supplied. *)
Lemma update_task_stamps_updated_at :
  query_task 1 alice sample_db = Some alice_task /\
  TaskUpdate.title (req_data retitle) = Some (py "New") /\
  fst (update_task 1 (req_data retitle) alice 100 200 sample_db) =
    inr (Task.mk 1 (py "New") (Some (py "text")) TODO MEDIUM (Some 50)
                 1 0 (Some 200) None) /\
  Task.updated_at alice_task = None /\
  Task.updated_at (updated_row retitle alice_task) <>
    Task.updated_at alice_task.
Proof. repeat split. discriminate. Qed.

(** C9 (amended): an update that finds its row changes the supplied
    fields (title and description to their sanitised values), sets
    [completed_at] when the supplied status is completed, and has
    [updated_at] set to the time of the store exactly when one of these
    assignments changed the row; [id], [owner_id] and [created_at], the
    fields that are not supplied, and [completed_at] when no status is
    supplied keep their values.  So no sequence of updates makes a
    description or a due date that is set [None] again. *)
Theorem update_task_frame
    (task_id : Z) (u : User.t) (db : Store) (loaded : Task.t)
    (req : update_request) :
  query_task task_id u db = Some loaded ->
  let data := req_data req in
  exists t',
    update_task task_id data u (req_utcnow req) (req_db_now req) db =
      (inr t', mkStore (users db) (save_task t' (tasks db))) /\
    Task.id t' = Task.id loaded /\
    Task.owner_id t' = Task.owner_id loaded /\
    Task.created_at t' = Task.created_at loaded /\
    Task.title t' =
      match TaskUpdate.title data with
      | Some v => sanitize v | None => Task.title loaded end /\
    Task.description t' =
      match TaskUpdate.description data with
      | Some v => Some (sanitize v) | None => Task.description loaded end /\
    Task.status t' =
      match TaskUpdate.status data with
      | Some v => v | None => Task.status loaded end /\
    Task.priority t' =
      match TaskUpdate.priority data with
      | Some v => v | None => Task.priority loaded end /\
    Task.due_date t' =
      match TaskUpdate.due_date data with
      | Some v => Some v | None => Task.due_date loaded end /\
    Task.completed_at t' =
      (if decide (TaskUpdate.status data = Some COMPLETED)
       then Some (req_utcnow req) else Task.completed_at loaded) /\
    Task.updated_at t' =
      (if decide (apply_update data (req_utcnow req) loaded = loaded)
       then Task.updated_at loaded else Some (req_db_now req)) /\
    (forall r, r ∈ tasks db -> Task.id r <> Task.id loaded ->
               r ∈ save_task t' (tasks db)) /\
    forall reqs,
      (is_Some (Task.description loaded) ->
       is_Some (Task.description (run_updates loaded reqs))) /\
      (is_Some (Task.due_date loaded) ->
       is_Some (Task.due_date (run_updates loaded reqs))).
Proof.
  intros Hq data. exists (updated_row req loaded).
  split; [apply update_task_found; exact Hq|].
  pose proof (updated_row_frame req loaded) as Hf. cbv zeta in Hf.
  destruct Hf as (Hid & Ho & Hc & Hti & Hde & Hst & Hpr & Hdu & Hco & Hup).
  repeat (split; [assumption|]).
  split.
  - intros r Hr Hne. apply save_task_other; [assumption | congruence].
  - intros reqs. apply run_updates_keeps_set.
Qed.

Lemma update_task_frame_witness :
  exists t',
    update_task 1 (req_data complete) alice 100 200 sample_db =
      (inr t', mkStore (users sample_db) (save_task t' (tasks sample_db))) /\
    Task.title t' = Task.title alice_task /\
    Task.completed_at t' = Some 100.
Proof.
  destruct (update_task_frame 1 alice sample_db alice_task complete
              eq_refl)
    as (t' & Hu & _ & _ & _ & Hti & _ & _ & _ & _ & Hco & _).
  exists t'. split; [exact Hu|]. split; [exact Hti | exact Hco].
Defined.

Lemma completed_at_lifecycle_witness :
  is_Some (Task.completed_at (run_updates alice_task [retitle; complete])) /\
  is_Some (Task.completed_at
             (run_updates alice_task [complete; retitle])) /\
  ~ is_Some (Task.completed_at (run_updates alice_task [retitle; retitle])).
Proof.
  destruct completed_at_lifecycle as (_ & _ & _ & _ & _ & H).
  split; [|split].
  - apply (proj2 (H alice_task [retitle; complete] eq_refl eq_refl)).
    reflexivity.
  - apply (proj2 (H alice_task [complete; retitle] eq_refl eq_refl)).
    reflexivity.
  - intros Hs.
    apply (proj1 (H alice_task [retitle; retitle] eq_refl eq_refl)) in Hs.
    vm_compute in Hs. discriminate Hs.
Defined.

Lemma cross_owner_not_found_witness :
  get_task 1 bob sample_db = (inl task_not_found, sample_db) /\
  update_task 1 (req_data retitle) bob 100 200 sample_db =
    (inl task_not_found, sample_db) /\
  delete_task 1 bob sample_db = (inl task_not_found, sample_db).
Proof.
  destruct (cross_owner_not_found sample_db alice bob alice_task
              (req_data retitle) 100 200)
    as (Hg & Hu & Hd & _).
  - unfold tasks_keyed. simpl. apply NoDup_singleton.
  - simpl. left.
  - reflexivity.
  - simpl. lia.
  - exact (conj Hg (conj Hu Hd)).
Defined.

Lemma get_tasks_pagination_witness :
  exists l, get_tasks None None (Some 0) (Some 5) alice sample_db =
            (inr l, sample_db) /\
            Z.of_nat (length l) = 1.
Proof.
  destruct (get_tasks_pagination sample_db alice 0 5) as [(l & Hl & Hn & _) _].
  - lia.
  - lia.
  - exists l. split; [exact Hl | exact Hn].
Defined.

(** ** User store *)

Lemma query_user_None (user_id : Z) (db : Store) :
  query_user user_id db = None <->
  forall u, u ∈ users db -> User.id u <> user_id.
Proof.
  unfold query_user. rewrite head_None. split.
  - intros H u Hu Hid.
    eapply filter_nil_not_elem_of; [exact H | exact Hid | exact Hu].
  - intros H. destruct (filter _ _) as [|u l] eqn:E; [reflexivity|].
    assert (Hu : u ∈ filter (fun u => User.id u = user_id) (users db)).
    { rewrite E. left. }
    apply list_elem_of_filter in Hu as [Hid Hu]. destruct (H u Hu Hid).
Qed.

Lemma query_user_Some (user_id : Z) (db : Store) (u : User.t) :
  query_user user_id db = Some u -> u ∈ users db /\ User.id u = user_id.
Proof.
  unfold query_user. intros H%head_Some_elem_of.
  apply list_elem_of_filter in H. tauto.
Qed.

(** After the row is written, the query by its key finds it. *)
Lemma query_user_saved (u' : User.t) (db : Store) (loaded : User.t) :
  query_user (User.id u') db = Some loaded ->
  query_user (User.id u') (mkStore (save_user u' (users db)) (tasks db)) =
    Some u'.
Proof.
  unfold query_user. simpl. induction (users db) as [|r rows IH]; simpl.
  - discriminate.
  - rewrite filter_cons. destruct (decide (User.id r = User.id u')) as [E|E].
    + intros _. rewrite filter_cons, decide_True by reflexivity. reflexivity.
    + intros H. rewrite filter_cons, decide_False by assumption. auto.
Qed.

Lemma save_user_other (u' r : User.t) (rows : list User.t) :
  r ∈ rows -> User.id r <> User.id u' -> r ∈ save_user u' rows.
Proof.
  intros Hr Hne. unfold save_user.
  apply list_elem_of_In, in_map_iff. exists r.
  split; [|exact (proj1 (list_elem_of_In _ _) Hr)].
  destruct (decide (User.id r = User.id u')); [contradiction | reflexivity].
Qed.

(** The row written when [is_active] is set to [v]. *)
Lemma flush_user_is_active (db_now : datetime) (v : bool) (loaded : User.t) :
  let u' := flush_user db_now loaded (User.with_is_active v loaded) in
  User.is_active u' = v /\
  User.id u' = User.id loaded /\
  User.username u' = User.username loaded /\
  User.email u' = User.email loaded /\
  User.hashed_password u' = User.hashed_password loaded /\
  User.full_name u' = User.full_name loaded /\
  User.is_admin u' = User.is_admin loaded /\
  User.created_at u' = User.created_at loaded.
Proof.
  unfold flush_user.
  destruct (decide (User.with_is_active v loaded = loaded)) as [E|_];
    simpl; [|tauto].
  rewrite <- E at 1. simpl. tauto.
Qed.

(** C8: an admin who deactivates their own id gets 400 and stays active;
    deactivating or activating an id that is not in the store gets 404;
    deactivating another user that exists writes [is_active = false] for
    that user, and activating a user that exists, the caller included,
    writes [is_active = true]. *)
Theorem set_active_rules
    (db : Store) (admin : User.t) (user_id : Z) (db_now : datetime) :
  get_current_admin_user admin = inr admin ->
  admin ∈ users db ->
  (deactivate_user (User.id admin) admin db_now db =
     (inl (HTTPException 400 "Cannot deactivate yourself"), db) /\
   User.is_active admin = true) /\
  (query_user user_id db = None ->
   deactivate_user user_id admin db_now db = (inl user_not_found, db) /\
   activate_user user_id admin db_now db = (inl user_not_found, db) /\
   status_of user_not_found = 404) /\
  (forall target,
     user_id <> User.id admin ->
     query_user user_id db = Some target ->
     exists u' db',
       deactivate_user user_id admin db_now db = (inr u', db') /\
       User.is_active u' = false /\
       query_user user_id db' = Some u' /\
       User.id u' = User.id target /\
       User.username u' = User.username target /\
       tasks db' = tasks db /\
       forall r, r ∈ users db -> User.id r <> user_id -> r ∈ users db') /\
  (forall target,
     query_user user_id db = Some target ->
     exists u' db',
       activate_user user_id admin db_now db = (inr u', db') /\
       User.is_active u' = true /\
       query_user user_id db' = Some u' /\
       User.id u' = User.id target /\
       User.username u' = User.username target /\
       tasks db' = tasks db /\
       forall r, r ∈ users db -> User.id r <> user_id -> r ∈ users db').
Proof.
  intros Hadmin Hin. split; [|split; [|split]].
  - split.
    + unfold deactivate_user. rewrite decide_True by reflexivity. reflexivity.
    + unfold get_current_admin_user, get_current_active_user in Hadmin.
      destruct (User.is_active admin); [reflexivity | discriminate].
  - intros Hq. unfold deactivate_user, activate_user. rewrite Hq.
    rewrite decide_False; [auto|].
    intros ->. exact (proj1 (query_user_None _ _) Hq admin Hin eq_refl).
  - intros target Hne Hq. unfold deactivate_user.
    rewrite decide_False by assumption. rewrite Hq.
    destruct (query_user_Some _ _ _ Hq) as [_ Hid].
    destruct (flush_user_is_active db_now false target)
      as (Ha & Hi & Hu & _).
    cbv zeta in Ha, Hi, Hu.
    eexists _, _. split; [reflexivity|].
    split; [exact Ha|]. split.
    { rewrite <- Hid, <- Hi. apply (query_user_saved _ _ target).
      now rewrite Hi, Hid. }
    split; [exact Hi|]. split; [exact Hu|]. split; [reflexivity|].
    intros r Hr Hr'. apply save_user_other; [assumption | congruence].
  - intros target Hq. unfold activate_user. rewrite Hq.
    destruct (query_user_Some _ _ _ Hq) as [_ Hid].
    destruct (flush_user_is_active db_now true target)
      as (Ha & Hi & Hu & _).
    cbv zeta in Ha, Hi, Hu.
    eexists _, _. split; [reflexivity|].
    split; [exact Ha|]. split.
    { rewrite <- Hid, <- Hi. apply (query_user_saved _ _ target).
      now rewrite Hi, Hid. }
    split; [exact Hi|]. split; [exact Hu|]. split; [reflexivity|].
    intros r Hr Hr'. apply save_user_other; [assumption | congruence].
Qed.

Lemma set_active_rules_witness :
  deactivate_user 1 alice 300 sample_db =
    (inl (HTTPException 400 "Cannot deactivate yourself"), sample_db) /\
  (exists u' db',
     deactivate_user 2 alice 300 sample_db = (inr u', db') /\
     User.is_active u' = false /\ query_user 2 db' = Some u') /\
  deactivate_user 7 alice 300 sample_db = (inl user_not_found, sample_db).
Proof.
  assert (Hin : alice ∈ users sample_db) by (simpl; left).
  split; [|split].
  - exact (proj1 (proj1 (set_active_rules sample_db alice 2 300
                           eq_refl Hin))).
  - destruct (proj1 (proj2 (proj2 (set_active_rules sample_db alice 2 300
                                     eq_refl Hin))) bob)
      as (u' & db' & Hd & Ha & Hq & _).
    + simpl. lia.
    + reflexivity.
    + exists u', db'. auto.
  - apply (proj1 (proj2 (set_active_rules sample_db alice 7 300
                           eq_refl Hin))).
    reflexivity.
Defined.

(** *** Registration *)

Lemma head_filter_is_Some {A} (P : A -> Prop) `{!forall x, Decision (P x)}
    (l : list A) :
  is_Some (head (filter P l)) <-> exists x, x ∈ l /\ P x.
Proof.
  rewrite head_is_Some. split.
  - intros Hne. destruct (filter P l) as [|x l'] eqn:E; [congruence|].
    exists x. apply and_comm, (list_elem_of_filter P). rewrite E. left.
  - intros (x & Hx & HP) E.
    eapply filter_nil_not_elem_of; [exact E | exact HP | exact Hx].
Qed.

Lemma validate_registration_data_status
    (ud : char -> bool) (username email password : str) (e : HTTPError) :
  validate_registration_data ud username email password = inl e ->
  status_of e = 400.
Proof.
  unfold validate_registration_data.
  destruct (validate_username username); simpl;
    [|intros [= <-]; reflexivity].
  destruct (validate_email email); simpl; [|intros [= <-]; reflexivity].
  destruct (validate_password ud password); simpl;
    [discriminate | intros [= <-]; reflexivity].
Qed.

(** C6 (counterexample): with alice registered, a second registration with
    her username and a weak password fails, but with the error of the
    password check and not with a conflict. *)
Lemma register_same_username_weak_password :
  (exists u, u ∈ users alice_registered /\
             User.username u = UserCreate.username register_alice_weak) /\
  fst (register_user is_digit toy_hash toy_email_str register_alice_weak (py "salt") 1
         alice_registered) =
    inl (HTTPException 400
      "Password must be at least 8 characters and contain uppercase, lowercase, number, and special character") /\
  ~ is_conflict
      (HTTPException 400
        "Password must be at least 8 characters and contain uppercase, lowercase, number, and special character").
Proof.
  split; [|split].
  - eexists. split; [left | reflexivity].
  - reflexivity.
  - intros [H|H]; discriminate H.
Qed.

(** The request with its address replaced by the validated one. *)
Lemma register_user_validated
    (ud : char -> bool) (pwd_hash : str -> str -> str)
    (email_str : str -> option str) (data : UserCreate.t) (email salt : str)
    (db_now : datetime) (db : Store) :
  email_str (UserCreate.email data) = Some email ->
  register_user ud pwd_hash email_str data salt db_now db =
  register_user ud pwd_hash Some
    (UserCreate.mk (UserCreate.username data) email (UserCreate.password data)
                   (UserCreate.full_name data)) salt db_now db.
Proof. intros H. unfold register_user. now rewrite H. Qed.

Lemma register_user_rejected
    (ud : char -> bool) (pwd_hash : str -> str -> str)
    (email_str : str -> option str) (data : UserCreate.t) (salt : str)
    (db_now : datetime) (db : Store) :
  email_str (UserCreate.email data) = None ->
  register_user ud pwd_hash email_str data salt db_now db =
  (inl RequestValidationError, db).
Proof. intros H. unfold register_user. now rewrite H. Qed.

(** The handler on a validated request with a taken name or address. *)
Lemma register_taken_validated
    (unicode_decimal : char -> bool) (pwd_hash : str -> str -> str)
    (db : Store) (data : UserCreate.t) (salt : str) (db_now : datetime) :
  (exists u, u ∈ users db /\
     (User.username u = UserCreate.username data \/
      User.email u = UserCreate.email data)) ->
  (exists e,
     register_user unicode_decimal pwd_hash Some data salt db_now db =
       (inl e, db) /\ status_of e = 400) /\
  (validate_registration_data unicode_decimal (UserCreate.username data)
     (UserCreate.email data) (UserCreate.password data) = inr tt ->
   (exists e,
      register_user unicode_decimal pwd_hash Some data salt db_now db =
        (inl e, db) /\ is_conflict e) /\
   ((exists u, u ∈ users db /\
               User.username u = UserCreate.username data) ->
    register_user unicode_decimal pwd_hash Some data salt db_now db =
      (inl (HTTPException 400 "Username already registered"), db)) /\
   ((forall u, u ∈ users db ->
               User.username u <> UserCreate.username data) ->
    register_user unicode_decimal pwd_hash Some data salt db_now db =
      (inl (HTTPException 400 "Email already registered"), db))).
Proof.
  intros (u & Hu & Htaken).
  pose proof (head_filter_is_Some
    (fun u => User.username u = UserCreate.username data) (users db)) as Hn.
  pose proof (head_filter_is_Some
    (fun u => User.email u = UserCreate.email data) (users db)) as He.
  unfold register_user.
  cbn [UserCreate.username UserCreate.email UserCreate.password
       UserCreate.full_name].
  destruct (validate_registration_data _ _ _ _) as [e|[]] eqn:Hv.
  { split; [|discriminate].
    exists e. split; [reflexivity|].
    eapply validate_registration_data_status, Hv. }
  destruct (head (filter (fun u => User.username u = _) _)) as [n|] eqn:En.
  { split; [eexists; split; reflexivity|]. intros _.
    split; [eexists; split; [reflexivity | now left]|].
    split; [reflexivity|].
    intros Hfree. destruct (proj1 Hn) as (x & Hx & Hxn); [eauto|].
    destruct (Hfree x Hx Hxn). }
  assert (Hfree : forall x, x ∈ users db ->
                            User.username x <> UserCreate.username data).
  { intros x Hx Hxn. destruct (proj2 Hn) as [y Hy]; [eauto | discriminate]. }
  destruct Htaken as [Hun|Hem]; [destruct (Hfree u Hu Hun)|].
  destruct (head (filter (fun u => User.email u = _) _)) as [m|] eqn:Em.
  2: { destruct (proj2 He) as [y Hy]; [eauto | discriminate]. }
  split; [eexists; split; reflexivity|]. intros _.
  split; [eexists; split; [reflexivity | now right]|].
  split; [|reflexivity].
  intros (x & Hx & Hxn). destruct (Hfree x Hx Hxn).
Qed.

(** C6 (amended): when the store has a user with the submitted username,
    or with the email the submitted address validates to, registration
    fails and stores nothing, whatever the other fields are: with 422 when
    [EmailStr] rejects the submitted address, and else with status 400;
    when the submitted fields pass validation, which runs first, the
    failure is the conflict error, for the username if it is taken and
    else for the email. *)
Theorem register_taken
    (unicode_decimal : char -> bool) (pwd_hash : str -> str -> str)
    (email_str : str -> option str)
    (db : Store) (data : UserCreate.t) (salt : str) (db_now : datetime) :
  (exists u, u ∈ users db /\
     (User.username u = UserCreate.username data \/
      Some (User.email u) = email_str (UserCreate.email data))) ->
  (exists e,
     register_user unicode_decimal pwd_hash email_str data salt db_now db =
       (inl e, db) /\
     (status_of e = 400 \/ status_of e = 422)) /\
  (email_str (UserCreate.email data) = None ->
   register_user unicode_decimal pwd_hash email_str data salt db_now db =
     (inl RequestValidationError, db)) /\
  (forall email,
     email_str (UserCreate.email data) = Some email ->
     (exists e,
        register_user unicode_decimal pwd_hash email_str data salt db_now db =
          (inl e, db) /\ status_of e = 400) /\
     (validate_registration_data unicode_decimal (UserCreate.username data)
        email (UserCreate.password data) = inr tt ->
      (exists e,
         register_user unicode_decimal pwd_hash email_str data salt db_now db
           = (inl e, db) /\ is_conflict e) /\
      ((exists u, u ∈ users db /\
                  User.username u = UserCreate.username data) ->
       register_user unicode_decimal pwd_hash email_str data salt db_now db =
         (inl (HTTPException 400 "Username already registered"), db)) /\
      ((forall u, u ∈ users db ->
                  User.username u <> UserCreate.username data) ->
       register_user unicode_decimal pwd_hash email_str data salt db_now db =
         (inl (HTTPException 400 "Email already registered"), db)))).
Proof.
  intros (u & Hu & Htaken).
  assert (Hval : forall email,
            email_str (UserCreate.email data) = Some email ->
            (exists e,
               register_user unicode_decimal pwd_hash email_str data salt
                 db_now db = (inl e, db) /\ status_of e = 400) /\
            (validate_registration_data unicode_decimal
               (UserCreate.username data) email (UserCreate.password data) =
               inr tt ->
             (exists e,
                register_user unicode_decimal pwd_hash email_str data salt
                  db_now db = (inl e, db) /\ is_conflict e) /\
             ((exists u, u ∈ users db /\
                         User.username u = UserCreate.username data) ->
              register_user unicode_decimal pwd_hash email_str data salt
                db_now db =
                (inl (HTTPException 400 "Username already registered"), db))
             /\
             ((forall u, u ∈ users db ->
                         User.username u <> UserCreate.username data) ->
              register_user unicode_decimal pwd_hash email_str data salt
                db_now db =
                (inl (HTTPException 400 "Email already registered"), db)))).
  { intros email Ee.
    rewrite (register_user_validated _ _ _ _ email) by exact Ee.
    apply (register_taken_validated unicode_decimal pwd_hash db
             (UserCreate.mk (UserCreate.username data) email
                (UserCreate.password data) (UserCreate.full_name data))).
    exists u. split; [exact Hu|]. cbn [UserCreate.username UserCreate.email].
    destruct Htaken as [Hn|He]; [now left | right; congruence]. }
  split; [|split; [apply register_user_rejected | exact Hval]].
  destruct (email_str (UserCreate.email data)) as [email|] eqn:Ee.
  - destruct (Hval email eq_refl) as [(e & Hr & Hs) _].
    exists e. split; [exact Hr | now left].
  - exists RequestValidationError.
    split; [now apply register_user_rejected | now right].
Qed.

Lemma register_taken_witness :
  register_user is_digit toy_hash toy_email_str register_alice_again
    (py "salt") 1 alice_registered =
  (inl (HTTPException 400 "Username already registered"), alice_registered).
Proof.
  assert (Hin : exists u, u ∈ users alice_registered /\
                  User.username u = UserCreate.username register_alice_again).
  { eexists. split; [left | reflexivity]. }
  destruct Hin as (u & Hu & Hn).
  destruct (register_taken is_digit toy_hash toy_email_str alice_registered
              register_alice_again (py "salt") 1) as (_ & _ & H).
  - exists u. split; [exact Hu | left; exact Hn].
  - apply (H (py "other@x.com") eq_refl); [reflexivity|].
    exists u. split; [exact Hu | exact Hn].
Defined.

(** *** The view of a user *)

Lemma from_attributes_hash (h : str) (u : User.t) :
  UserResponse.from_attributes (User.with_hashed_password h u) =
  UserResponse.from_attributes u.
Proof. reflexivity. Qed.

Lemma rehash_views (f : User.t -> str) (db : Store) :
  map UserResponse.from_attributes (users (rehash f db)) =
  map UserResponse.from_attributes (users db).
Proof.
  unfold rehash. simpl. rewrite map_map. apply map_ext.
  intros u. apply from_attributes_hash.
Qed.

Lemma rehash_ids (f : User.t -> str) (db : Store) :
  map User.id (users (rehash f db)) = map User.id (users db).
Proof. unfold rehash. simpl. rewrite map_map. now apply map_ext. Qed.

(** A query on columns other than the hash finds a row in the rehashed
    store exactly when it finds one in the store. *)
Lemma rehash_head_filter (f : User.t -> str) (rows : list User.t)
    (P : User.t -> Prop) `{!forall u, Decision (P u)} :
  (forall u h, P (User.with_hashed_password h u) <-> P u) ->
  is_Some (head (filter P
             (map (fun u => User.with_hashed_password (f u) u) rows))) <->
  is_Some (head (filter P rows)).
Proof.
  intros HP. rewrite !head_filter_is_Some. split.
  - intros (x & Hx & HPx).
    apply list_elem_of_In, in_map_iff in Hx as (u & <- & Hu).
    exists u. split; [now apply list_elem_of_In | now apply (HP u (f u))].
  - intros (u & Hu & HPu).
    exists (User.with_hashed_password (f u) u). split; [|now apply HP].
    apply list_elem_of_In, in_map_iff. exists u.
    split; [reflexivity | exact (proj1 (list_elem_of_In _ _) Hu)].
Qed.

Lemma register_user_view_rehash
    (ud : char -> bool) (hash1 hash2 : str -> str -> str)
    (es : str -> option str)
    (data : UserCreate.t) (salt1 salt2 : str) (db_now : datetime)
    (f : User.t -> str) (db : Store) :
  fst (respond (register_user ud hash1 es data salt1 db_now (rehash f db))) =
  fst (respond (register_user ud hash2 es data salt2 db_now db)).
Proof.
  unfold respond. cbn [fst]. unfold register_user.
  destruct (es (UserCreate.email data)) as [email|]; [|reflexivity].
  cbn [UserCreate.username UserCreate.email UserCreate.password
       UserCreate.full_name].
  destruct (validate_registration_data _ _ _ _) as [e|[]]; [reflexivity|].
  pose proof (rehash_head_filter f (users db)
    (fun u => User.username u = UserCreate.username data)
    (fun u h => reflexivity _)) as Hn.
  pose proof (rehash_head_filter f (users db)
    (fun u => User.email u = email)
    (fun u h => reflexivity _)) as He.
  rewrite rehash_ids. unfold rehash. cbn [users tasks].
  destruct (head (filter (fun u => User.username u = _) (map _ _))) as [x|];
    destruct (head (filter (fun u => User.username u = _) (users db)))
      as [x'|];
    try reflexivity;
    try (destruct (proj1 Hn) as [? [=]]; eauto; fail);
    try (destruct (proj2 Hn) as [? [=]]; eauto; fail).
  destruct (head (filter (fun u => User.email u = _) (map _ _))) as [y|];
    destruct (head (filter (fun u => User.email u = _) (users db)))
      as [y'|];
    try reflexivity;
    try (destruct (proj1 He) as [? [=]]; eauto; fail);
    try (destruct (proj2 He) as [? [=]]; eauto; fail).
Qed.

(** C2: the view of a user has no field for the password hash, and what
    register, the profile route and the admin listing answer is the same
    for any two values of the stored hashes. *)
Theorem user_view_independent_of_hash :
  (forall (u : User.t) (h1 h2 : str),
     UserResponse.from_attributes (User.with_hashed_password h1 u) =
     UserResponse.from_attributes (User.with_hashed_password h2 u)) /\
  (forall (ud : char -> bool) (hash1 hash2 : str -> str -> str)
          (es : str -> option str)
          (data : UserCreate.t) (salt1 salt2 : str) (db_now : datetime)
          (f : User.t -> str) (db : Store),
     fst (respond
            (register_user ud hash1 es data salt1 db_now (rehash f db))) =
     fst (respond (register_user ud hash2 es data salt2 db_now db))) /\
  (forall (u : User.t) (h : str) (db : Store),
     fst (respond
            (get_current_user_profile (User.with_hashed_password h u), db)) =
     fst (respond (get_current_user_profile u, db))) /\
  (forall (admin : User.t) (f : User.t -> str) (db : Store),
     fst (respond_all (get_all_users admin (rehash f db))) =
     fst (respond_all (get_all_users admin db))).
Proof.
  split; [|split; [|split]].
  - intros u h1 h2. now rewrite !from_attributes_hash.
  - intros. apply register_user_view_rehash.
  - intros u h db. reflexivity.
  - intros admin f db. unfold respond_all, get_all_users. cbn [fst].
    now rewrite rehash_views.
Qed.

(** ** Token service *)

Section Tokens.

Variable sign : string -> str -> gmap string claim -> str.
Variable settings : Settings.
Variable int_of_str : str -> option Z.


(** Decoding a token that carries the signature of the process key. *)
Lemma decode_signed (claims : gmap string claim) (utcnow : datetime) :
  decode_token sign settings int_of_str
    (jwt_encode sign claims (SECRET_KEY settings) (ALGORITHM settings))
    utcnow =
  match validate_claims int_of_str claims utcnow with
  | Some _ => None
  | None => Some claims
  end.
Proof.
  unfold decode_token, jwt_encode, jwt_decode.
  rewrite bool_decide_eq_true_2 by (left).
  rewrite bool_decide_eq_true_2 by reflexivity. cbn [negb].
  destruct (validate_claims int_of_str claims utcnow); reflexivity.
Qed.

(** The whole seconds of the default lifetime. *)
Lemma timegm_after_whole (seconds microsecond k : Z) :
  timegm_after seconds microsecond (k * 1000000) = seconds + k.
Proof.
  unfold timegm_after.
  replace (seconds * 1000000 + microsecond mod 1000000 + k * 1000000)
    with ((seconds + k) * 1000000 + microsecond mod 1000000) by ring.
  rewrite Z.div_add_l by discriminate.
  rewrite Z.div_small by (apply Z.mod_pos_bound; reflexivity). ring.
Qed.

(** The checks on the claims of a token with a subject and an expiry
    only. *)
Lemma validate_claims_sub_exp (u : str) (exp utcnow : Z) :
  validate_claims int_of_str
    (<["exp" := ClaimInt exp]> {["sub" := ClaimStr u]}) utcnow =
  if exp <? utcnow then Some ExpiredSignatureError else None.
Proof.
  set (m := <["exp" := ClaimInt exp]> {["sub" := ClaimStr u]}).
  assert (Habsent : forall k : string,
            k <> "exp" -> k <> "sub" -> m !! k = None).
  { intros k H1 H2. unfold m. rewrite lookup_insert_ne by congruence.
    apply lookup_singleton_ne. congruence. }
  assert (Hexp : m !! "exp" = Some (ClaimInt exp))
    by apply lookup_insert_eq.
  assert (Hsub : m !! "sub" = Some (ClaimStr u)).
  { unfold m. rewrite lookup_insert_ne by discriminate.
    apply lookup_singleton_eq. }
  unfold validate_claims.
  rewrite (Habsent "iat"), (Habsent "nbf"), (Habsent "aud"), (Habsent "jti"),
    (Habsent "at_hash"), Hexp, Hsub by discriminate.
  cbn [int_of_claim negb].
  destruct (exp <? utcnow); reflexivity.
Qed.


End Tokens.


(** * Further properties of the code *)

(** ** Validators *)

Lemma match_star_dollar_spec (cls : char -> bool) (s : str) :
  match_star_dollar cls s = true <->
  exists p nl, s = p ++ nl /\ forallb cls p = true /\ (nl = [] \/ nl = [LF]).
Proof.
  unfold match_star_dollar.
  rewrite orb_true_iff, match_plus_dollar_spec, at_dollar_spec. split.
  - intros [(p & _ & Hall & [->| ->])|[->| ->]].
    + exists p, []. rewrite app_nil_r. auto.
    + exists p, [LF]. auto.
    + exists [], []. auto.
    + exists [], [LF]. auto.
  - intros (p & nl & -> & Hall & Hnl). destruct p as [|c p].
    + right. simpl. exact Hnl.
    + left. exists (c :: p). split; [discriminate|]. split; [exact Hall|].
      destruct Hnl as [->| ->]; [left; now rewrite app_nil_r | now right].
Qed.

Lemma match_tld_spec (s : str) :
  match_tld s = true <->
  exists t nl, s = t ++ nl /\ (2 <= length t)%nat /\
               forallb is_alpha t = true /\ (nl = [] \/ nl = [LF]).
Proof.
  unfold match_tld. destruct s as [|c1 [|c2 r]].
  - split; [discriminate|]. intros (t & nl & H & Hlen & _).
    destruct t as [|? [|? ?]]; simpl in *; try lia; discriminate.
  - split; [discriminate|]. intros (t & nl & H & Hlen & _).
    destruct t as [|? [|? ?]]; simpl in *; try lia; discriminate.
  - rewrite !andb_true_iff, match_star_dollar_spec. split.
    + intros [[H1 H2] (p & nl & -> & Hall & Hnl)].
      exists (c1 :: c2 :: p), nl. simpl. rewrite H1, H2, Hall.
      repeat split; [lia | assumption].
    + intros (t & nl & H & Hlen & Hall & Hnl).
      destruct t as [|d1 [|d2 t]]; simpl in Hlen; try lia.
      simpl in H. injection H as -> -> ->. simpl in Hall.
      apply andb_true_iff in Hall as [H1 Hall].
      apply andb_true_iff in Hall as [H2 Hall].
      repeat split; try assumption. exists t, nl. auto.
Qed.

(** A matcher of the shape [cls+ x rest]. *)
Lemma plus_then_spec (cls : char -> bool) (x : char) (G F : str -> bool) :
  (forall s, F s =
     match s with
     | [] => false
     | c :: r =>
         cls c &&
         (F r || match r with
                 | a :: t => (a =? x)%N && G t
                 | [] => false
                 end)
     end) ->
  forall s, F s = true <->
    exists p t, s = p ++ x :: t /\ p <> [] /\ forallb cls p = true /\
                G t = true.
Proof.
  intros HF s. induction s as [|c r IH]; rewrite HF.
  - split; [discriminate|]. intros (p & t & H & _).
    destruct p; discriminate.
  - rewrite andb_true_iff, orb_true_iff, IH. split.
    + intros [Hc [(p & t & -> & Hp & Hall & HG)|Hr]].
      * exists (c :: p), t. simpl. rewrite Hc, Hall.
        repeat split; [discriminate | assumption].
      * destruct r as [|a t]; [discriminate|].
        apply andb_true_iff in Hr as [Ha HG]. apply N.eqb_eq in Ha as ->.
        exists [c], t. simpl. rewrite Hc.
        repeat split; [discriminate | assumption].
    + intros (p & t & H & Hp & Hall & HG).
      destruct p as [|c' p]; [congruence|]. simpl in H, Hall.
      injection H as -> ->. apply andb_true_iff in Hall as [Hc Hall].
      split; [assumption|]. destruct p as [|d p].
      * right. simpl. now rewrite N.eqb_refl.
      * left. exists (d :: p), t. repeat split; try assumption. discriminate.
Qed.

Lemma match_domain_spec (s : str) :
  match_domain s = true <->
  exists d t, s = d ++ DOT :: t /\ d <> [] /\ forallb is_domain d = true /\
              match_tld t = true.
Proof.
  apply (plus_then_spec is_domain DOT match_tld match_domain).
  intros [|c r]; reflexivity.
Qed.

Lemma match_email_spec (s : str) :
  match_email s = true <->
  exists l t, s = l ++ AT :: t /\ l <> [] /\ forallb is_local l = true /\
              match_domain t = true.
Proof.
  apply (plus_then_spec is_local AT match_domain match_email).
  intros [|c r]; reflexivity.
Qed.

(** The decomposition of an accepted address. *)
Lemma validate_email_spec (s : str) :
  validate_email s = true <->
  exists l d t nl,
    s = l ++ AT :: d ++ DOT :: t ++ nl /\
    l <> [] /\ forallb is_local l = true /\
    d <> [] /\ forallb is_domain d = true /\
    (2 <= length t)%nat /\ forallb is_alpha t = true /\
    (nl = [] \/ nl = [LF]).
Proof.
  unfold validate_email. rewrite match_email_spec. split.
  - intros (l & r & -> & Hl & Hall & Hd).
    apply match_domain_spec in Hd as (d & r' & -> & Hd & Hdall & Ht).
    apply match_tld_spec in Ht as (t & nl & -> & Hlen & Htall & Hnl).
    exists l, d, t, nl. auto 10.
  - intros (l & d & t & nl & -> & Hl & Hall & Hd & Hdall & Hlen & Htall & Hnl).
    exists l, (d ++ DOT :: t ++ nl). repeat split; try assumption.
    apply match_domain_spec. exists d, (t ++ nl).
    repeat split; try assumption.
    apply match_tld_spec. exists t, nl. auto.
Qed.

(** The strings [validate_email] accepts: a non-empty local part of the
    class of the pattern, an at sign, a non-empty domain part of its class,
    a dot, at least two letters, and then nothing or one newline. *)
Theorem validate_email_accepts (s : str) :
  validate_email s = true <->
  exists l d t nl,
    s = l ++ AT :: d ++ DOT :: t ++ nl /\
    l <> [] /\ forallb is_local l = true /\
    d <> [] /\ forallb is_domain d = true /\
    (2 <= length t)%nat /\ forallb is_alpha t = true /\
    (nl = [] \/ nl = [LF]).
Proof. exact (validate_email_spec s). Qed.

Lemma filter_class_none (cls : char -> bool) (x : char) (p : str) :
  cls x = false -> forallb cls p = true ->
  filter (fun c => c = x) p = [].
Proof.
  intros Hx. induction p as [|c p IH]; [reflexivity|].
  cbn [forallb]. rewrite andb_true_iff. intros [Hc Hall].
  rewrite (filter_cons (fun c => c = x)), decide_False; [auto|].
  intros ->. congruence.
Qed.

(** An accepted address has exactly one at sign. *)
Theorem validate_email_one_at (s : str) :
  validate_email s = true ->
  length (filter (fun c => c = AT) s) = 1%nat.
Proof.
  intros H. apply validate_email_spec in H
    as (l & d & t & nl & -> & _ & Hl & _ & Hd & _ & Ht & Hnl).
  pose (P := fun c : char => c = AT).
  assert (Hn : forall cls p, cls AT = false -> forallb cls p = true ->
                             filter P p = [])
    by (intros cls p; apply filter_class_none).
  change (length (filter P (l ++ AT :: d ++ DOT :: t ++ nl)) = 1%nat).
  rewrite (filter_app P), (filter_cons P), (filter_app P), (filter_cons P),
    (filter_app P).
  rewrite (Hn is_local l), (Hn is_domain d), (Hn is_alpha t)
    by (assumption || reflexivity).
  destruct Hnl as [->| ->]; reflexivity.
Qed.

Lemma validate_email_one_at_witness :
  length (filter (fun c => c = AT) (py "test@example.com")) = 1%nat.
Proof. apply validate_email_one_at. reflexivity. Defined.

(** [validate_registration_data] passes exactly when the three validators
    accept, and otherwise raises a 400 whose message is that of the first
    check that fails, in the order username, email, password. *)
Theorem validate_registration_data_order
    (ud : char -> bool) (username email password : str) :
  (validate_registration_data ud username email password = inr tt <->
   validate_username username = true /\ validate_email email = true /\
   validate_password ud password = true) /\
  (validate_username username = false ->
   validate_registration_data ud username email password =
     inl (HTTPException 400
       "Username must be 3-50 characters and contain only letters, numbers, and underscores")) /\
  (validate_username username = true -> validate_email email = false ->
   validate_registration_data ud username email password =
     inl (HTTPException 400 "Invalid email address")) /\
  (validate_username username = true -> validate_email email = true ->
   validate_password ud password = false ->
   validate_registration_data ud username email password =
     inl (HTTPException 400
       "Password must be at least 8 characters and contain uppercase, lowercase, number, and special character")).
Proof.
  unfold validate_registration_data.
  destruct (validate_username username), (validate_email email),
    (validate_password ud password); simpl;
    repeat split; try tauto; try discriminate; try (intros (? & ? & ?));
    try discriminate; auto.
Qed.

Lemma validate_registration_data_order_witness :
  validate_registration_data is_digit (py "ab") (py "nowhere") (py "weak") =
    inl (HTTPException 400
      "Username must be 3-50 characters and contain only letters, numbers, and underscores") /\
  validate_registration_data is_digit (py "alice") (py "nowhere") (py "weak") =
    inl (HTTPException 400 "Invalid email address").
Proof.
  split.
  - apply (validate_registration_data_order is_digit). reflexivity.
  - apply (validate_registration_data_order is_digit); reflexivity.
Defined.

Lemma sub_spaces_length (s : str) (b : bool) :
  (length (sub_spaces b s) <= length s)%nat.
Proof.
  revert b. induction s as [|c r IH]; intros b; simpl; [lia|].
  pose proof (IH true). pose proof (IH false).
  destruct (is_space c); [destruct b|]; simpl; lia.
Qed.

(** [sanitize_string] never makes a string longer. *)
Theorem sanitize_length (s : str) : (length (sanitize s) <= length s)%nat.
Proof.
  unfold sanitize, strip.
  pose proof (sublist_length _ _ (rstrip_sublist
    (lstrip (sub_spaces false (sub_tags false s))))) as H1.
  pose proof (sublist_length _ _ (lstrip_sublist
    (sub_spaces false (sub_tags false s)))) as H2.
  pose proof (sub_spaces_length (sub_tags false s) false) as H3.
  pose proof (sublist_length _ _ (sub_tags_sublist s false)) as H4.
  lia.
Qed.

Lemma visible_sub_spaces (s : list char) (b : bool) :
  filter visible (sub_spaces b s) = filter visible s.
Proof.
  revert b. induction s as [|c r IH]; intros b; [reflexivity|].
  cbn [sub_spaces]. destruct (is_space c) eqn:Hc.
  - rewrite (filter_cons_False visible c r) by (unfold visible; congruence).
    destruct b; [apply IH|].
    rewrite (filter_cons_False visible SP) by (unfold visible; discriminate).
    apply IH.
  - rewrite !(filter_cons_True visible c) by exact Hc. now rewrite IH.
Qed.

Lemma visible_spaces (w : list char) :
  forallb is_space w = true -> filter visible w = [].
Proof.
  induction w as [|c w IH]; [reflexivity|]. cbn [forallb].
  rewrite andb_true_iff. intros [Hc Hw].
  rewrite (filter_cons_False visible c w) by (unfold visible; congruence).
  auto.
Qed.

Lemma visible_lstrip (s : list char) :
  filter visible (lstrip s) = filter visible s.
Proof.
  unfold str in *.
  destruct (lstrip_split s) as (w & Hw & Hall).
  transitivity (filter visible (w ++ lstrip s)); [|now rewrite <- Hw].
  now rewrite (filter_app visible), (visible_spaces w).
Qed.

Lemma visible_rstrip (s : list char) :
  filter visible (rstrip s) = filter visible s.
Proof.
  unfold str in *.
  destruct (rstrip_split s) as (w & Hw & Hall).
  transitivity (filter visible (rstrip s ++ w)); [|now rewrite <- Hw].
  now rewrite (filter_app visible), (visible_spaces w), app_nil_r.
Qed.

Lemma visible_strip (s : list char) :
  filter visible (strip s) = filter visible s.
Proof. unfold strip, str in *. now rewrite visible_rstrip, visible_lstrip. Qed.

Lemma no_LT_tag_free (s : str) :
  (forall c, c ∈ s -> c <> LT) -> tag_free s = true.
Proof.
  induction s as [|c r IH]; intros H; simpl; [reflexivity|].
  rewrite IH by (intros x Hx; apply H; now right).
  destruct (N.eqb_spec c LT) as [E|_]; [|reflexivity].
  destruct (H c); [left | exact E].
Qed.

(** In a text with no [<], [sanitize_string] touches whitespace only: the
    other characters come out the same and in the same order. *)
Theorem sanitize_keeps_text (s : str) :
  (forall c, c ∈ s -> c <> LT) ->
  filter visible (sanitize s) = filter visible s.
Proof.
  intros H. unfold sanitize, str in *.
  rewrite visible_strip, visible_sub_spaces.
  now rewrite sub_tags_tag_free by (apply no_LT_tag_free, H).
Qed.

Lemma sanitize_keeps_text_witness :
  filter visible (sanitize (py " a  b > c ")) = py "ab>c".
Proof.
  rewrite sanitize_keeps_text; [reflexivity|].
  intros c Hc. apply list_elem_of_In in Hc. simpl in Hc.
  intros ->. repeat (destruct Hc as [Hc|Hc]; [discriminate Hc|]).
  exact Hc.
Defined.

(** ** Task store *)

Lemma tasks_keyed_preserved_witness :
  tasks_keyed (snd (create_task (TaskCreate.mk (py "t") None LOW None)
                      bob 5 sample_db)) /\
  tasks_keyed (snd (delete_task 1 alice sample_db)).
Proof.
  assert (Hk : tasks_keyed sample_db)
    by (unfold tasks_keyed; simpl; apply NoDup_singleton).
  destruct (tasks_keyed_preserved sample_db Hk) as (Hc & _ & Hd).
  split; [apply Hc | apply Hd].
Defined.

Lemma filter_none {A} (P : A -> Prop) `{!forall x, Decision (P x)}
    (l : list A) :
  (forall x, x ∈ l -> ~ P x) -> filter P l = [].
Proof.
  induction l as [|a l IH]; intros Hl; [reflexivity|].
  rewrite filter_cons_False by (apply Hl; left).
  apply IH. intros x Hx. apply Hl. now right.
Qed.

Lemma filter_all {A} (P : A -> Prop) `{!forall x, Decision (P x)}
    (l : list A) :
  (forall x, x ∈ l -> P x) -> filter P l = l.
Proof.
  induction l as [|a l IH]; intros Hl; [reflexivity|].
  rewrite filter_cons_True by (apply Hl; left).
  f_equal. apply IH. intros x Hx. apply Hl. now right.
Qed.

(** Create, then get: the created task has a key above every key of the
    table, belongs to the caller, has the sanitised title, and is what the
    caller's [get_task] for that key answers; the caller holds one task
    more. *)
Theorem create_then_get
    (data : TaskCreate.t) (u : User.t) (db_now : datetime) (db : Store) :
  exists t db',
    create_task data u db_now db = (inr t, db') /\
    (forall r, r ∈ tasks db -> Task.id r < Task.id t) /\
    Task.owner_id t = User.id u /\
    Task.title t = sanitize (TaskCreate.title data) /\
    get_task (Task.id t) u db' = (inr t, db') /\
    task_count u db' = S (task_count u db) /\
    users db' = users db.
Proof.
  eexists _, _. split; [reflexivity|].
  assert (Hfresh : forall r, r ∈ tasks db ->
            Task.id r < next_id (map Task.id (tasks db))).
  { intros r Hr. apply next_id_fresh, list_elem_of_In, in_map.
    exact (proj1 (list_elem_of_In _ _) Hr). }
  split; [exact Hfresh|]. split; [reflexivity|]. split; [reflexivity|].
  split; [|split; [|reflexivity]].
  - unfold get_task, query_task. cbn [tasks Task.id].
    rewrite filter_app, filter_none.
    + rewrite filter_cons_True by (split; reflexivity). reflexivity.
    + intros r Hr [Hid _]. specialize (Hfresh r Hr). lia.
  - unfold task_count. cbn [tasks].
    rewrite filter_app, length_app.
    rewrite filter_cons_True by reflexivity. simpl. lia.
Qed.

Lemma query_task_saved (task_id : Z) (u : User.t) (db : Store)
    (loaded t' : Task.t) :
  query_task task_id u db = Some loaded ->
  Task.id t' = task_id -> Task.owner_id t' = User.id u ->
  query_task task_id u (mkStore (users db) (save_task t' (tasks db))) =
    Some t'.
Proof.
  intros Hq Hid Hown. unfold query_task in *. cbn [tasks].
  induction (tasks db) as [|r rows IH]; [discriminate|].
  simpl. rewrite filter_cons in Hq.
  destruct (decide (Task.id r = Task.id t')) as [E|E].
  - rewrite filter_cons_True by (split; assumption). reflexivity.
  - rewrite filter_cons_False in *
      by (intros [Hr _]; apply E; congruence).
    rewrite decide_False in Hq by (intros [Hr _]; apply E; congruence).
    auto.
Qed.

(** Update, then get: the row the update wrote is what the owner's
    [get_task] answers next. *)
Theorem update_then_get
    (task_id : Z) (u : User.t) (db : Store) (loaded : Task.t)
    (req : update_request) :
  query_task task_id u db = Some loaded ->
  exists t' db',
    update_task task_id (req_data req) u (req_utcnow req) (req_db_now req)
      db = (inr t', db') /\
    get_task task_id u db' = (inr t', db') /\
    length (tasks db') = length (tasks db).
Proof.
  intros Hq. eexists _, _.
  split; [apply update_task_found; exact Hq|].
  destruct (query_task_Some _ _ _ _ Hq) as (_ & Hid & Hown).
  destruct (updated_row_frame req loaded) as (Hid' & Hown' & _).
  split.
  - unfold get_task.
    rewrite (query_task_saved task_id u db loaded) by congruence.
    reflexivity.
  - cbn [tasks]. unfold save_task. apply length_map.
Qed.

Lemma update_then_get_witness :
  exists t' db',
    update_task 1 (req_data retitle) alice 100 200 sample_db = (inr t', db')
    /\ get_task 1 alice db' = (inr t', db').
Proof.
  destruct (update_then_get 1 alice sample_db alice_task retitle eq_refl)
    as (t' & db' & Hu & Hg & _).
  exists t', db'. split; [exact Hu | exact Hg].
Defined.

Lemma keyed_filter_length {A} (f : A -> Z) (l : list A) (x : A) :
  NoDup (map f l) -> x ∈ l ->
  S (length (filter (fun r => f r <> f x) l)) = length l.
Proof.
  induction l as [|a l IH]; simpl; [intros _ H; inversion H|].
  rewrite NoDup_cons, elem_of_cons. intros [Ha Hl] Hx.
  destruct (decide (f a = f x)) as [E|E].
  - rewrite filter_cons_False by (intros H; apply H, E).
    rewrite filter_all; [reflexivity|].
    intros y Hy Hfy. apply Ha. rewrite E, <- Hfy.
    apply list_elem_of_In, in_map. exact (proj1 (list_elem_of_In _ _) Hy).
  - rewrite filter_cons_True by exact E. simpl. f_equal.
    destruct Hx as [->|Hx]; [congruence | auto].
Qed.

(** Delete, then get: after a delete that finds its row no task has that
    key, the owner's [get_task] answers 404, the rows with another key
    stay, and under the primary key the table has one row less. *)
Theorem delete_then_get
    (task_id : Z) (u : User.t) (db : Store) (loaded : Task.t) :
  query_task task_id u db = Some loaded ->
  exists db',
    delete_task task_id u db = (inr tt, db') /\
    (forall r, r ∈ tasks db' -> Task.id r <> task_id) /\
    get_task task_id u db' = (inl task_not_found, db') /\
    (forall r, r ∈ tasks db -> Task.id r <> task_id -> r ∈ tasks db') /\
    users db' = users db /\
    (tasks_keyed db -> S (length (tasks db')) = length (tasks db)).
Proof.
  intros Hq. destruct (query_task_Some _ _ _ _ Hq) as (Hin & Hid & Hown).
  unfold delete_task. rewrite Hq. eexists. split; [reflexivity|].
  cbn [tasks users].
  assert (Hgone : forall r,
            r ∈ filter (fun r => Task.id r <> Task.id loaded) (tasks db) ->
            Task.id r <> task_id).
  { intros r Hr. apply list_elem_of_filter in Hr as [Hr _]. congruence. }
  split; [exact Hgone|]. split; [|split; [|split; [reflexivity|]]].
  - apply not_found_leaves_store, query_task_None.
    intros r Hr [Hr' _]. exact (Hgone r Hr Hr').
  - intros r Hr Hne. apply list_elem_of_filter.
    split; [congruence | assumption].
  - intros Hkey. now apply keyed_filter_length.
Qed.

Lemma delete_then_get_witness :
  exists db',
    delete_task 1 alice sample_db = (inr tt, db') /\
    get_task 1 alice db' = (inl task_not_found, db') /\
    length (tasks db') = 0%nat.
Proof.
  destruct (delete_then_get 1 alice sample_db alice_task eq_refl)
    as (db' & Hd & _ & Hg & _ & _ & Hlen).
  exists db'. split; [exact Hd|]. split; [exact Hg|].
  assert (Hk : tasks_keyed sample_db)
    by (unfold tasks_keyed; simpl; apply NoDup_singleton).
  specialize (Hlen Hk). simpl in Hlen. lia.
Defined.

Lemma apply_update_again (data : TaskUpdate.t) (now now' : datetime)
    (task : Task.t) :
  TaskUpdate.status data <> Some COMPLETED ->
  apply_update data now' (apply_update data now task) =
  apply_update data now task.
Proof.
  destruct data as [ti de [[]|] pr du]; simpl; intros H;
    try (destruct H; reflexivity);
    destruct ti, de, pr, du; reflexivity.
Qed.

Lemma apply_update_updated_at (data : TaskUpdate.t) (now : datetime)
    (v : option datetime) (task : Task.t) :
  apply_update data now (Task.with_updated_at v task) =
  Task.with_updated_at v (apply_update data now task).
Proof.
  destruct data as [ti de [[]|] pr du]; destruct ti, de, pr, du; reflexivity.
Qed.

(** Sending an update again: when the fields of a request do not set the
    status to completed, a second request with the same fields, at any
    later clock readings, leaves the row as the first one wrote it,
    [updated_at] included. *)
Theorem update_again_is_noop (req req' : update_request) (task : Task.t) :
  req_data req' = req_data req ->
  TaskUpdate.status (req_data req) <> Some COMPLETED ->
  updated_row req' (updated_row req task) = updated_row req task.
Proof.
  intros Hd Hs. unfold updated_row at 1. rewrite Hd.
  assert (E : apply_update (req_data req) (req_utcnow req')
                (updated_row req task) = updated_row req task).
  { unfold updated_row, flush_task.
    destruct (decide (apply_update (req_data req) (req_utcnow req) task =
                      task)) as [E|_].
    - rewrite <- E at 1. rewrite apply_update_again by assumption.
      exact E.
    - rewrite apply_update_updated_at.
      now rewrite apply_update_again. }
  rewrite E. unfold flush_task at 1. now rewrite decide_True.
Qed.

Lemma update_again_is_noop_witness :
  updated_row (mkRequest (req_data retitle) 900 901)
    (updated_row retitle alice_task) =
  updated_row retitle alice_task.
Proof.
  apply update_again_is_noop; [reflexivity | discriminate].
Defined.

(** The listing with filters: for a skip and a limit within their bounds
    every task answered is owned by the caller and has the status and the
    priority asked for, there are at most [limit] of them, and they come
    in the order of the table. *)
Theorem get_tasks_filtered
    (st : option TaskStatus) (pr : option TaskPriority) (k m : Z)
    (u : User.t) (db : Store) :
  0 <= k -> 1 <= m <= 100 ->
  exists l,
    get_tasks st pr (Some k) (Some m) u db = (inr l, db) /\
    Forall (fun t =>
      Task.owner_id t = User.id u /\
      (forall v, st = Some v -> Task.status t = v) /\
      (forall v, pr = Some v -> Task.priority t = v)) l /\
    Z.of_nat (length l) <= m /\
    sublist l (tasks db).
Proof.
  intros Hk Hm. unfold get_tasks.
  rewrite (Query_in_bounds 0 k (Some 0) None) by (simpl; auto).
  rewrite (Query_in_bounds 10 m (Some 1) (Some 100)) by (simpl; lia).
  eexists. split; [reflexivity|]. split; [|split].
  - apply Forall_take, Forall_drop, Forall_forall. intros t Ht.
    destruct st as [v|], pr as [w|];
      repeat (apply list_elem_of_filter in Ht as [? Ht]);
      repeat split; try assumption; intros ? [= <-]; assumption.
  - rewrite length_take. lia.
  - etransitivity; [apply sublist_take|].
    etransitivity; [apply sublist_drop|].
    destruct st as [v|], pr as [w|];
      repeat (etransitivity; [apply sublist_filter|]); reflexivity.
Qed.

Lemma get_tasks_filtered_witness :
  exists l,
    get_tasks (Some TODO) (Some MEDIUM) (Some 0) (Some 100) alice sample_db =
      (inr l, sample_db) /\
    Z.of_nat (length l) <= 100.
Proof.
  destruct (get_tasks_filtered (Some TODO) (Some MEDIUM) 0 100 alice
              sample_db) as (l & Hl & _ & Hn & _); [lia | lia |].
  exists l. split; [exact Hl | exact Hn].
Defined.

(** A skip below 0 and a limit outside 1..100 are refused before the
    table is read, and the store is left as it was. *)
Theorem get_tasks_out_of_bounds
    (st : option TaskStatus) (pr : option TaskPriority)
    (skip limit : option Z) (k : Z) (u : User.t) (db : Store) :
  (skip = Some k /\ k < 0) \/
  (limit = Some k /\ (k < 1 \/ 100 < k)) ->
  get_tasks st pr skip limit u db = (inl RequestValidationError, db).
Proof.
  unfold get_tasks, Query. intros [[-> Hk]|[-> Hk]].
  - destruct (Z.ltb_spec k 0); [reflexivity | lia].
  - destruct skip as [j|]; [destruct (j <? 0); [reflexivity|]|];
      (destruct (Z.ltb_spec k 1); [reflexivity|]);
      (destruct (Z.ltb_spec 100 k); [reflexivity | lia]).
Qed.

Lemma get_tasks_out_of_bounds_witness :
  get_tasks None None None (Some 0) alice sample_db =
    (inl RequestValidationError, sample_db).
Proof.
  apply (get_tasks_out_of_bounds None None None (Some 0) 0).
  right. split; [reflexivity | lia].
Defined.

(** Pages compose: the page of [m] tasks at skip [k] followed by the page
    of [m'] tasks at skip [k + m] is the page of [m + m'] tasks at skip
    [k]. *)
Theorem get_tasks_pages_compose
    (st : option TaskStatus) (pr : option TaskPriority) (k m m' : Z)
    (u : User.t) (db : Store) :
  0 <= k -> 1 <= m -> 1 <= m' -> m + m' <= 100 ->
  exists l1 l2,
    get_tasks st pr (Some k) (Some m) u db = (inr l1, db) /\
    get_tasks st pr (Some (k + m)) (Some m') u db = (inr l2, db) /\
    get_tasks st pr (Some k) (Some (m + m')) u db = (inr (l1 ++ l2), db).
Proof.
  intros Hk Hm Hm' Hsum. unfold get_tasks.
  rewrite (Query_in_bounds 0 k (Some 0) None) by (simpl; auto).
  rewrite (Query_in_bounds 0 (k + m) (Some 0) None) by (simpl; auto; lia).
  rewrite (Query_in_bounds 10 m (Some 1) (Some 100)) by (simpl; lia).
  rewrite (Query_in_bounds 10 m' (Some 1) (Some 100)) by (simpl; lia).
  rewrite (Query_in_bounds 10 (m + m') (Some 1) (Some 100)) by (simpl; lia).
  eexists _, _. split; [reflexivity|]. split; [reflexivity|].
  do 2 f_equal.
  rewrite !Z2Nat.inj_add by lia.
  rewrite <- drop_drop.
  symmetry. apply take_take_drop.
Qed.

Lemma get_tasks_pages_compose_witness :
  exists l1 l2,
    get_tasks None None (Some 0) (Some 1) alice sample_db =
      (inr l1, sample_db) /\
    get_tasks None None (Some 1) (Some 1) alice sample_db =
      (inr l2, sample_db) /\
    get_tasks None None (Some 0) (Some 2) alice sample_db =
      (inr (l1 ++ l2), sample_db).
Proof.
  apply (get_tasks_pages_compose None None 0 1 1 alice sample_db); lia.
Defined.

Lemma filter_map_replace {A} (P : A -> Prop) `{!forall x, Decision (P x)}
    (g : A -> A) (l : list A) :
  (forall r, r ∈ l -> g r = r \/ (~ P r /\ ~ P (g r))) ->
  filter P (map g l) = filter P l.
Proof.
  induction l as [|a l IH]; intros Hl; [reflexivity|]. simpl.
  rewrite !filter_cons, IH by (intros r Hr; apply Hl; now right).
  destruct (Hl a) as [->|[Hn Hn']]; [left | reflexivity|].
  now rewrite !decide_False.
Qed.

Lemma filter_filter_keep {A} (P Q : A -> Prop)
    `{!forall x, Decision (P x)} `{!forall x, Decision (Q x)} (l : list A) :
  (forall r, r ∈ l -> P r -> Q r) ->
  filter P (filter Q l) = filter P l.
Proof.
  induction l as [|a l IH]; intros Hl; [reflexivity|].
  rewrite (filter_cons Q), (filter_cons P),
    <- IH by (intros r Hr; apply Hl; now right).
  destruct (decide (Q a)) as [HQ|HQ].
  - now rewrite (filter_cons P).
  - rewrite decide_False; [reflexivity|].
    intros HP. apply HQ, Hl; [left | exact HP].
Qed.

(** Owner isolation: whatever a user creates, updates or deletes, the
    tasks another user holds stay the same rows in the same order. *)
Theorem other_owner_untouched (db : Store) (u other : User.t) :
  tasks_keyed db ->
  User.id other <> User.id u ->
  (forall data db_now,
     tasks_of other (snd (create_task data u db_now db)) = tasks_of other db)
  /\
  (forall task_id data utcnow db_now,
     tasks_of other (snd (update_task task_id data u utcnow db_now db)) =
     tasks_of other db) /\
  (forall task_id,
     tasks_of other (snd (delete_task task_id u db)) = tasks_of other db).
Proof.
  intros Hkey Hne. unfold tasks_of. split; [|split].
  - intros data db_now. cbn [create_task snd tasks].
    rewrite filter_app, filter_cons_False by (simpl; congruence).
    now rewrite filter_nil, app_nil_r.
  - intros task_id data utcnow db_now. unfold update_task.
    destruct (query_task task_id u db) as [loaded|] eqn:Hq; [|reflexivity].
    destruct (query_task_Some _ _ _ _ Hq) as (Hin & Hid & Hown).
    cbn [snd tasks]. unfold save_task. apply filter_map_replace.
    intros r Hr. destruct (decide _) as [E|_]; [|now left].
    right.
    destruct (flush_task_columns db_now loaded
                (apply_update data utcnow loaded))
      as (Hi & _ & _ & _ & _ & _ & Ho & _).
    destruct (apply_update_frame data utcnow loaded) as (Hi' & Ho' & _).
    cbv zeta in Hi, Ho, Hi', Ho'.
    assert (r = loaded) as ->.
    { eapply keyed_inj; [exact Hkey | exact Hr | exact Hin | congruence]. }
    split; congruence.
  - intros task_id. unfold delete_task.
    destruct (query_task task_id u db) as [loaded|] eqn:Hq; [|reflexivity].
    destruct (query_task_Some _ _ _ _ Hq) as (Hin & Hid & Hown).
    cbn [snd tasks]. apply filter_filter_keep.
    intros r Hr Hother E.
    assert (r = loaded) as ->
      by (eapply keyed_inj; [exact Hkey | exact Hr | exact Hin | exact E]).
    congruence.
Qed.

Lemma other_owner_untouched_witness :
  tasks_of alice (snd (delete_task 1 bob sample_db)) = tasks_of alice sample_db
  /\
  tasks_of alice
    (snd (create_task (TaskCreate.mk (py "t") None LOW None) bob 5 sample_db))
    = tasks_of alice sample_db.
Proof.
  assert (Hk : tasks_keyed sample_db)
    by (unfold tasks_keyed; simpl; apply NoDup_singleton).
  assert (Hne : User.id alice <> User.id bob) by (simpl; lia).
  destruct (other_owner_untouched sample_db bob alice Hk Hne)
    as (Hc & _ & Hd).
  split; [apply Hd | apply Hc].
Defined.

(** ** User store *)

Lemma head_filter_None {A} (P : A -> Prop) `{!forall x, Decision (P x)}
    (l : list A) :
  head (filter P l) = None <-> forall x, x ∈ l -> ~ P x.
Proof.
  split.
  - intros E x Hx HP.
    destruct (proj2 (head_filter_is_Some P l)) as [y Hy]; [eauto|].
    congruence.
  - intros Hl. now rewrite filter_none.
Qed.

Lemma query_user_keyed (db : Store) (u : User.t) :
  NoDup (map User.id (users db)) -> u ∈ users db ->
  query_user (User.id u) db = Some u.
Proof.
  intros Hkey Hu. unfold query_user.
  destruct (head (filter _ (users db))) as [r|] eqn:E.
  - apply head_Some_elem_of, list_elem_of_filter in E as [Hid Hr].
    f_equal. eapply keyed_inj; eauto.
  - destruct (proj1 (head_filter_None _ _) E u Hu). reflexivity.
Qed.

(** When the handler stores a row for a validated request, and which
    one. *)
Lemma register_user_cases
    (ud : char -> bool) (pwd_hash : str -> str -> str)
    (data : UserCreate.t) (salt : str) (db_now : datetime) (db : Store) :
  (validate_registration_data ud (UserCreate.username data)
     (UserCreate.email data) (UserCreate.password data) = inr tt ->
   (forall r, r ∈ users db ->
      User.username r <> UserCreate.username data /\
      User.email r <> UserCreate.email data) ->
   exists u,
     register_user ud pwd_hash Some data salt db_now db =
       (inr u, mkStore (users db ++ [u]) (tasks db)) /\
     User.username u = UserCreate.username data /\
     User.email u = UserCreate.email data /\
     User.full_name u = UserCreate.full_name data /\
     User.hashed_password u = pwd_hash salt (UserCreate.password data) /\
     User.is_active u = true /\ User.is_admin u = false /\
     User.created_at u = db_now /\
     (forall r, r ∈ users db -> User.id r < User.id u)) /\
  (forall u db',
     register_user ud pwd_hash Some data salt db_now db = (inr u, db') ->
     validate_registration_data ud (UserCreate.username data)
       (UserCreate.email data) (UserCreate.password data) = inr tt /\
     forall r, r ∈ users db ->
       User.username r <> UserCreate.username data /\
       User.email r <> UserCreate.email data).
Proof.
  unfold register_user.
  cbn [UserCreate.username UserCreate.email UserCreate.password
       UserCreate.full_name].
  split.
  - intros -> Hfree.
    rewrite (proj2 (head_filter_None _ _)) by (intros r Hr; apply Hfree, Hr).
    rewrite (proj2 (head_filter_None _ _)) by (intros r Hr; apply Hfree, Hr).
    eexists. split; [reflexivity|]. repeat split.
    intros r Hr. apply next_id_fresh, list_elem_of_In, in_map.
    exact (proj1 (list_elem_of_In _ _) Hr).
  - intros u db'.
    destruct (validate_registration_data _ _ _ _) as [e|[]];
      [discriminate|].
    destruct (head (filter (fun u => User.username u = _) _)) eqn:En;
      [discriminate|].
    destruct (head (filter (fun u => User.email u = _) _)) eqn:Em;
      [discriminate|].
    intros _. split; [reflexivity|]. intros r Hr. split.
    + exact (proj1 (head_filter_None _ _) En r Hr).
    + exact (proj1 (head_filter_None _ _) Em r Hr).
Qed.

(** Registration stores a row exactly when [EmailStr] accepts the
    submitted address, the username, the validated address and the
    password pass validation, and no user has that username or that
    validated address.  The row is then added at the end of the table:
    the submitted name and full name, the validated address, the hash of
    the password under the drawn salt, a key above every key of the table,
    active and not an admin. *)
Theorem register_success
    (ud : char -> bool) (pwd_hash : str -> str -> str)
    (email_str : str -> option str)
    (data : UserCreate.t) (salt : str) (db_now : datetime) (db : Store) :
  (forall email,
     email_str (UserCreate.email data) = Some email ->
     validate_registration_data ud (UserCreate.username data) email
       (UserCreate.password data) = inr tt ->
     (forall r, r ∈ users db ->
        User.username r <> UserCreate.username data /\
        User.email r <> email) ->
     exists u,
       register_user ud pwd_hash email_str data salt db_now db =
         (inr u, mkStore (users db ++ [u]) (tasks db)) /\
       User.username u = UserCreate.username data /\
       User.email u = email /\
       User.full_name u = UserCreate.full_name data /\
       User.hashed_password u = pwd_hash salt (UserCreate.password data) /\
       User.is_active u = true /\ User.is_admin u = false /\
       User.created_at u = db_now /\
       (forall r, r ∈ users db -> User.id r < User.id u)) /\
  (forall u db',
     register_user ud pwd_hash email_str data salt db_now db = (inr u, db') ->
     exists email,
       email_str (UserCreate.email data) = Some email /\
       validate_registration_data ud (UserCreate.username data) email
         (UserCreate.password data) = inr tt /\
       forall r, r ∈ users db ->
         User.username r <> UserCreate.username data /\
         User.email r <> email).
Proof.
  split.
  - intros email Ee Hv Hfree.
    rewrite (register_user_validated _ _ _ _ email) by exact Ee.
    apply (proj1 (register_user_cases ud pwd_hash
                    (UserCreate.mk (UserCreate.username data) email
                       (UserCreate.password data) (UserCreate.full_name data))
                    salt db_now db)); assumption.
  - intros u db'.
    destruct (email_str (UserCreate.email data)) as [email|] eqn:Ee.
    + rewrite (register_user_validated _ _ _ _ email) by exact Ee.
      intros H.
      apply (proj2 (register_user_cases ud pwd_hash _ salt db_now db)) in H.
      exists email. split; [reflexivity | exact H].
    + rewrite register_user_rejected by exact Ee. discriminate.
Qed.

Lemma register_success_witness :
  exists u,
    register_user is_digit toy_hash toy_email_str register_alice (py "salt") 0
      empty_db =
      (inr u, mkStore (users empty_db ++ [u]) (tasks empty_db)) /\
    User.is_active u = true /\ User.is_admin u = false.
Proof.
  destruct (proj1 (register_success is_digit toy_hash toy_email_str
                     register_alice (py "salt") 0 empty_db)
              (py "alice@x.com") eq_refl eq_refl)
    as (u & Hr & _ & _ & _ & _ & Ha & Hb & _).
  - intros r Hr. simpl in Hr. inversion Hr.
  - exists u. split; [exact Hr|]. split; [exact Ha | exact Hb].
Defined.

Lemma save_user_split (u' loaded : User.t) (rows : list User.t) :
  NoDup (map User.id rows) -> loaded ∈ rows ->
  User.id u' = User.id loaded ->
  exists l1 l2, rows = l1 ++ loaded :: l2 /\
                save_user u' rows = l1 ++ u' :: l2.
Proof.
  intros Hkey Hin Hid.
  destruct (list_elem_of_split _ _ Hin) as (l1 & l2 & ->).
  exists l1, l2. split; [reflexivity|].
  assert (Hother : forall r, r ∈ l1 ++ l2 -> User.id r <> User.id u').
  { intros r Hr E. rewrite map_app in Hkey. simpl in Hkey.
    apply NoDup_app in Hkey as (_ & Hdis & Hl2).
    apply NoDup_cons in Hl2 as [Hl2 _].
    apply elem_of_app in Hr as [Hr|Hr].
    - apply (Hdis (User.id r)).
      + apply list_elem_of_In, in_map.
        exact (proj1 (list_elem_of_In _ _) Hr).
      + rewrite E, Hid. left.
    - apply Hl2. rewrite <- Hid, <- E.
      apply list_elem_of_In, in_map.
      exact (proj1 (list_elem_of_In _ _) Hr). }
  unfold save_user. rewrite map_app. simpl.
  rewrite decide_True by congruence. f_equal; [|f_equal].
  - rewrite <- (map_id l1) at 2. apply map_ext_in. intros r Hr.
    rewrite decide_False; [reflexivity|].
    apply Hother, elem_of_app. left. now apply list_elem_of_In.
  - rewrite <- (map_id l2) at 2. apply map_ext_in. intros r Hr.
    rewrite decide_False; [reflexivity|].
    apply Hother, elem_of_app. right. now apply list_elem_of_In.
Qed.

(** Writing a row whose column [f] is new to the table, or is the one the
    row had, keeps the column free of duplicates. *)
Lemma save_user_NoDup {K} (f : User.t -> K) (u' loaded : User.t)
    (rows : list User.t) :
  NoDup (map User.id rows) -> loaded ∈ rows ->
  User.id u' = User.id loaded ->
  NoDup (map f rows) ->
  f u' = f loaded \/ (forall r, r ∈ rows -> f r <> f u') ->
  NoDup (map f (save_user u' rows)).
Proof.
  intros Hkey Hin Hid Hf Hnew.
  destruct (save_user_split u' loaded rows Hkey Hin Hid)
    as (l1 & l2 & -> & ->).
  destruct Hnew as [E|Hnew].
  - rewrite map_app in *. simpl in *. now rewrite E.
  - rewrite map_app in *. simpl in *.
    apply NoDup_app in Hf as (H1 & Hdis & H2).
    apply NoDup_cons in H2 as [Hl H2].
    apply NoDup_app. split; [exact H1|]. split.
    + intros k Hk. rewrite elem_of_cons. intros [->|Hk'].
      * apply list_elem_of_In, in_map_iff in Hk as (r & Hr & Hrin).
        apply (Hnew r); [|exact Hr].
        apply elem_of_app. left. now apply list_elem_of_In.
      * apply (Hdis k Hk). now right.
    + apply NoDup_cons. split; [|exact H2].
      intros Hk. apply list_elem_of_In, in_map_iff in Hk as (r & Hr & Hrin).
      apply (Hnew r); [|exact Hr].
      apply elem_of_app. right. right. now apply list_elem_of_In.
Qed.

Lemma NoDup_map_snoc {A K} (f : A -> K) (l : list A) (x : A) :
  NoDup (map f l) -> (forall r, r ∈ l -> f r <> f x) ->
  NoDup (map f (l ++ [x])).
Proof.
  intros Hl Hx. rewrite map_app. simpl. apply NoDup_app.
  split; [exact Hl|]. split; [|apply NoDup_singleton].
  intros k Hk. rewrite list_elem_of_singleton. intros ->.
  apply list_elem_of_In, in_map_iff in Hk as (r & Hr & Hrin).
  apply (Hx r); [now apply list_elem_of_In | exact Hr].
Qed.

(** The flush changes no column but [updated_at]. *)
Lemma flush_user_columns (db_now : datetime) (loaded user : User.t) :
  let u' := flush_user db_now loaded user in
  User.id u' = User.id user /\
  User.email u' = User.email user /\
  User.username u' = User.username user /\
  User.hashed_password u' = User.hashed_password user /\
  User.full_name u' = User.full_name user /\
  User.is_active u' = User.is_active user /\
  User.is_admin u' = User.is_admin user /\
  User.created_at u' = User.created_at user.
Proof.
  unfold flush_user. destruct (decide (user = loaded)) as [->|_]; simpl; tauto.
Qed.

(** The two outcomes of [update_current_user_profile] on a body whose
    address, if any, is valid. *)
Lemma update_profile_cases
    (es : str -> option str) (data : UserUpdate.t) (cu : User.t)
    (db_now : datetime) (db : Store) (email : option str) :
  validated_email es data = inr email ->
  let change :=
    truthy email && negb (bool_decide (email = Some (User.email cu))) in
  (change = true /\
   (exists r, r ∈ users db /\ Some (User.email r) = email) /\
   update_current_user_profile es data cu db_now db = (inl email_taken, db))
  \/
  ((change = true ->
    forall r, r ∈ users db -> Some (User.email r) <> email) /\
   exists u',
     update_current_user_profile es data cu db_now db =
       (inr u', mkStore (save_user u' (users db)) (tasks db)) /\
     User.id u' = User.id cu /\
     User.username u' = User.username cu /\
     User.hashed_password u' = User.hashed_password cu /\
     User.is_active u' = User.is_active cu /\
     User.is_admin u' = User.is_admin cu /\
     User.created_at u' = User.created_at cu /\
     User.email u' = (if change then default [] email else User.email cu) /\
     User.full_name u' =
       (if truthy (UserUpdate.full_name data)
        then UserUpdate.full_name data else User.full_name cu)).
Proof.
  intros Hval. cbv zeta.
  assert (E : update_current_user_profile es data cu db_now db =
    match
      (if truthy email &&
          negb (bool_decide (email = Some (User.email cu))) then
         match head (filter (fun u => Some (User.email u) = email)
                            (users db)) with
         | Some _ => inl email_taken
         | None => inr (set_email (default [] email) cu)
         end
       else inr cu) with
    | inl e => (inl e, db)
    | inr u1 =>
        (inr (flush_user db_now cu
                (if truthy (UserUpdate.full_name data)
                 then set_full_name (UserUpdate.full_name data) u1 else u1)),
         mkStore
           (save_user
              (flush_user db_now cu
                 (if truthy (UserUpdate.full_name data)
                  then set_full_name (UserUpdate.full_name data) u1 else u1))
              (users db)) (tasks db))
    end).
  { unfold update_current_user_profile. unfold validated_email in Hval.
    destruct (UserUpdate.email data) as [raw|];
      [destruct (es raw) as [e|]; [|discriminate]|];
      injection Hval as <-; reflexivity. }
  rewrite E. clear E.
  destruct (truthy email &&
            negb (bool_decide (email = Some (User.email cu)))) eqn:Hc.
  - destruct (head (filter _ (users db))) as [r|] eqn:Eh.
    + left. split; [reflexivity|]. split; [|reflexivity].
      apply head_Some_elem_of, list_elem_of_filter in Eh as [HP Hr]. eauto.
    + right. split.
      { intros _. exact (proj1 (head_filter_None _ _) Eh). }
      eexists. split; [reflexivity|].
      match goal with
      | |- context [flush_user db_now cu ?u] =>
          destruct (flush_user_columns db_now cu u)
            as (-> & -> & -> & -> & -> & -> & -> & ->)
      end.
      destruct (truthy (UserUpdate.full_name data)); repeat split.
  - right. split; [discriminate|].
    eexists. split; [reflexivity|].
    match goal with
    | |- context [flush_user db_now cu ?u] =>
        destruct (flush_user_columns db_now cu u)
          as (-> & -> & -> & -> & -> & -> & -> & ->)
    end.
    destruct (truthy (UserUpdate.full_name data)); repeat split.
Qed.

Lemma update_profile_rejected
    (es : str -> option str) (data : UserUpdate.t) (cu : User.t)
    (db_now : datetime) (db : Store) (e : HTTPError) :
  validated_email es data = inl e ->
  e = RequestValidationError /\
  update_current_user_profile es data cu db_now db =
    (inl RequestValidationError, db).
Proof.
  unfold update_current_user_profile, validated_email.
  destruct (UserUpdate.email data) as [raw|]; [|discriminate].
  destruct (es raw); [discriminate|]. intros [= <-]. split; reflexivity.
Qed.

(** A profile update is answered 422, the store untouched, when
    [EmailStr] rejects the submitted address.  Otherwise, with [email] the
    validated address if one was submitted: the update is refused with
    400 'Email already registered', the store untouched, exactly when
    [email] is not empty, is not the caller's own and is the email of a
    row of the table; it fails in no other way; and when it succeeds it
    never changes the key, the username, the password hash, the active and
    admin flags or the creation time of the caller, and writes the
    validated email and the submitted full name when they are not
    empty. *)
Theorem update_profile_frame
    (es : str -> option str) (data : UserUpdate.t) (cu : User.t)
    (db_now : datetime) (db : Store) :
  (forall raw,
     UserUpdate.email data = Some raw -> es raw = None ->
     update_current_user_profile es data cu db_now db =
       (inl RequestValidationError, db)) /\
  (forall email,
     validated_email es data = inr email ->
     let change :=
       truthy email && negb (bool_decide (email = Some (User.email cu))) in
     ((change = true /\
       exists r, r ∈ users db /\ Some (User.email r) = email) <->
      update_current_user_profile es data cu db_now db =
        (inl email_taken, db)) /\
     (forall e,
        fst (update_current_user_profile es data cu db_now db) = inl e ->
        e = email_taken /\ status_of e = 400 /\
        snd (update_current_user_profile es data cu db_now db) = db) /\
     (forall u',
        fst (update_current_user_profile es data cu db_now db) = inr u' ->
        User.id u' = User.id cu /\
        User.username u' = User.username cu /\
        User.hashed_password u' = User.hashed_password cu /\
        User.is_active u' = User.is_active cu /\
        User.is_admin u' = User.is_admin cu /\
        User.created_at u' = User.created_at cu /\
        User.email u' =
          (if change then default [] email else User.email cu) /\
        User.full_name u' =
          (if truthy (UserUpdate.full_name data)
           then UserUpdate.full_name data else User.full_name cu) /\
        tasks (snd (update_current_user_profile es data cu db_now db)) =
          tasks db)).
Proof.
  split.
  - intros raw Hraw Hes.
    apply (update_profile_rejected es data cu db_now db
             RequestValidationError).
    unfold validated_email. now rewrite Hraw, Hes.
  - intros email Hval. cbv zeta.
    destruct (update_profile_cases es data cu db_now db email Hval)
      as [(Hc & Hr & ->)|(Hfree & u & -> & H)]; cbv zeta in *.
    + split; [tauto|]. split; [|discriminate].
      intros e [= <-]. auto.
    + split; [|split; [discriminate|]].
      * split; [|discriminate].
        intros (Hc & r & Hr & Hre). destruct (Hfree Hc r Hr Hre).
      * intros u' [= <-]. cbn [snd tasks]. intuition.
Qed.

Lemma update_profile_frame_witness :
  update_current_user_profile toy_email_str
    (UserUpdate.mk None (Some (py "bob@x.com"))) alice 9 sample_db =
    (inl email_taken, sample_db) /\
  update_current_user_profile toy_email_str
    (UserUpdate.mk None (Some (py "nowhere"))) alice 9 sample_db =
    (inl RequestValidationError, sample_db).
Proof.
  destruct (update_profile_frame toy_email_str
              (UserUpdate.mk None (Some (py "bob@x.com"))) alice 9 sample_db)
    as (_ & H).
  destruct (update_profile_frame toy_email_str
              (UserUpdate.mk None (Some (py "nowhere"))) alice 9 sample_db)
    as (H' & _).
  split.
  - apply (H (Some (py "bob@x.com")) eq_refl).
    split; [reflexivity|]. exists bob.
    split; [simpl; right; left | reflexivity].
  - apply (H' (py "nowhere")); reflexivity.
Defined.

(** The handlers keep the key, the usernames and the emails of the users
    table free of duplicates. *)
Theorem users_unique_preserved (db : Store) :
  users_unique db ->
  (forall ud pwd_hash email_str data salt db_now,
     users_unique
       (snd (register_user ud pwd_hash email_str data salt db_now db))) /\
  (forall user_id admin db_now,
     users_unique (snd (deactivate_user user_id admin db_now db)) /\
     users_unique (snd (activate_user user_id admin db_now db))) /\
  (forall email_str data cu db_now,
     cu ∈ users db ->
     users_unique
       (snd (update_current_user_profile email_str data cu db_now db))).
Proof.
  intros (Hid & Hname & Hmail).
  assert (Hdb : users_unique db) by (repeat split; assumption).
  assert (Hset : forall v user_id db_now loaded,
            query_user user_id db = Some loaded ->
            users_unique
              (mkStore (save_user (flush_user db_now loaded
                                     (User.with_is_active v loaded))
                                  (users db)) (tasks db))).
  { intros v user_id db_now loaded Hq.
    destruct (query_user_Some _ _ _ Hq) as [Hin _].
    destruct (flush_user_is_active db_now v loaded)
      as (_ & Hi & Hu & He & _).
    cbv zeta in Hi, Hu, He.
    repeat split; cbn [users];
      apply (save_user_NoDup _ _ loaded); auto. }
  split; [|split].
  - intros ud pwd_hash es data salt db_now.
    destruct (es (UserCreate.email data)) as [email|] eqn:Ee.
    2: { now rewrite register_user_rejected by exact Ee. }
    rewrite (register_user_validated _ _ _ _ email) by exact Ee.
    set (data' := UserCreate.mk (UserCreate.username data) email
                    (UserCreate.password data) (UserCreate.full_name data)).
    destruct (register_user ud pwd_hash Some data' salt db_now db)
      as [[e|u] db'] eqn:E.
    + assert (db' = db) as ->; [|exact Hdb].
      revert E. unfold register_user.
      cbn [UserCreate.username UserCreate.email UserCreate.password
           UserCreate.full_name data'].
      destruct (validate_registration_data _ _ _ _) as [?|[]];
        [now intros [= _ <-]|].
      destruct (head (filter (fun u => User.username u = _) _));
        [now intros [= _ <-]|].
      destruct (head (filter (fun u => User.email u = _) _));
        [now intros [= _ <-] | discriminate].
    + destruct (proj2 (register_user_cases ud pwd_hash data' salt db_now db)
                  u db' E) as [Hv Hfree].
      destruct (proj1 (register_user_cases ud pwd_hash data' salt db_now db)
                  Hv Hfree) as (u0 & E0 & Hn & He & _ & _ & _ & _ & _ & Hk).
      rewrite E0 in E. injection E as <- <-. cbn [snd].
      repeat split; cbn [users]; apply NoDup_map_snoc; try assumption.
      * intros r Hr. specialize (Hk r Hr). lia.
      * intros r Hr. rewrite Hn. apply Hfree, Hr.
      * intros r Hr. rewrite He. apply Hfree, Hr.
  - intros user_id admin db_now. unfold deactivate_user, activate_user.
    destruct (query_user user_id db) as [loaded|] eqn:Hq.
    + split; [destruct (decide _); [exact Hdb|]|];
        cbn [snd]; eapply Hset; exact Hq.
    + split; [destruct (decide _)|]; exact Hdb.
  - intros es data cu db_now Hin.
    destruct (validated_email es data) as [e|email] eqn:Hval.
    { destruct (update_profile_rejected es data cu db_now db e Hval)
        as [_ ->]. exact Hdb. }
    destruct (update_profile_cases es data cu db_now db email Hval)
      as [(_ & _ & ->)|(Hnew & u' & -> & Hi & Hu & _ & _ & _ & _ & He & _)];
      [exact Hdb|].
    cbv zeta in *.
    cbn [snd]. repeat split; cbn [users];
      apply (save_user_NoDup _ _ cu); auto.
    destruct (truthy email &&
              negb (bool_decide (email = Some (User.email cu)))) eqn:Hc;
      [|now left].
    right. intros r Hr E. apply (Hnew eq_refl r Hr).
    rewrite E, He.
    apply andb_true_iff in Hc as [Ht _].
    destruct email as [[|c e]|]; try discriminate.
    reflexivity.
Qed.

Lemma users_unique_preserved_witness :
  users_unique (snd (register_user is_digit toy_hash toy_email_str
                       register_alice (py "salt") 0 sample_db)) /\
  users_unique (snd (deactivate_user 2 alice 9 sample_db)).
Proof.
  assert (Hu : users_unique sample_db).
  { repeat split; simpl; apply NoDup_cons; split;
      try apply NoDup_singleton; rewrite list_elem_of_singleton;
      discriminate. }
  destruct (users_unique_preserved sample_db Hu) as (Hr & Hd & _).
  split; [apply Hr | apply Hd].
Defined.

Lemma save_user_same (u : User.t) (rows : list User.t) :
  NoDup (map User.id rows) -> u ∈ rows -> save_user u rows = rows.
Proof.
  intros Hkey Hin.
  destruct (save_user_split u u rows Hkey Hin eq_refl) as (l1 & l2 & E & ->).
  now symmetry.
Qed.

(** Setting the flag a user already has writes nothing: activating an
    active user, or deactivating an inactive one, answers the stored row
    and leaves the store as it was, [updated_at] included. *)
Theorem set_active_again_is_noop
    (db : Store) (admin target : User.t) (user_id : Z) (db_now : datetime) :
  NoDup (map User.id (users db)) ->
  query_user user_id db = Some target ->
  (User.is_active target = true ->
   activate_user user_id admin db_now db = (inr target, db)) /\
  (User.is_active target = false -> user_id <> User.id admin ->
   deactivate_user user_id admin db_now db = (inr target, db)).
Proof.
  intros Hkey Hq. destruct (query_user_Some _ _ _ Hq) as [Hin _].
  assert (Hsame : forall v, User.is_active target = v ->
            flush_user db_now target (User.with_is_active v target) = target).
  { intros v <-. unfold flush_user.
    destruct target; simpl. now rewrite decide_True. }
  unfold activate_user, deactivate_user. rewrite Hq. split.
  - intros Ha. rewrite (Hsame true Ha), save_user_same by assumption.
    now destruct db.
  - intros Ha Hne. rewrite decide_False by assumption.
    rewrite (Hsame false Ha), save_user_same by assumption.
    now destruct db.
Qed.

Lemma set_active_again_is_noop_witness :
  activate_user 2 alice 77 sample_db = (inr bob, sample_db).
Proof.
  apply (set_active_again_is_noop sample_db alice bob 2 77).
  - simpl. apply NoDup_cons. split; [|apply NoDup_singleton].
    rewrite list_elem_of_singleton. discriminate.
  - reflexivity.
  - reflexivity.
Defined.

(** The two gates: [get_current_admin_user] lets exactly the active admins
    through and answers them unchanged; an inactive user gets the 400 of
    the active gate whether admin or not, an active user who is no admin
    gets 403. *)
Theorem admin_gate (u : User.t) :
  (forall u', get_current_admin_user u = inr u' <->
     u' = u /\ User.is_active u = true /\ User.is_admin u = true) /\
  (User.is_active u = false ->
   get_current_active_user u = inl (HTTPException 400 "Inactive user") /\
   get_current_admin_user u = inl (HTTPException 400 "Inactive user")) /\
  (User.is_active u = true ->
   get_current_active_user u = inr u /\
   (User.is_admin u = false ->
    get_current_admin_user u =
      inl (HTTPException 403 "Not enough privileges"))).
Proof.
  unfold get_current_admin_user, get_current_active_user.
  destruct u as [i e n h f act adm c up]. cbn [User.is_active User.is_admin].
  destruct act, adm; cbn [negb].
  all: split; [intros u'; split|split].
  all: try (intros [= <-]; auto; fail).
  all: try (intros (-> & Ha' & Hb'); (reflexivity || discriminate); fail).
  all: try (intros H; discriminate H).
  all: try (intros _; split; [reflexivity|]; intros H;
            (reflexivity || discriminate H); fail).
  all: try (intros _; split; reflexivity).
Qed.

Lemma admin_gate_witness :
  get_current_admin_user bob = inl (HTTPException 403 "Not enough privileges")
  /\ get_current_admin_user alice = inr alice.
Proof.
  split.
  - apply (proj2 (proj2 (admin_gate bob))); reflexivity.
  - apply (proj1 (admin_gate alice)). repeat split.
Defined.

(** Deactivation takes effect at the gate: the row a deactivation wrote
    is refused by [get_current_active_user] with 400, and the row a later
    activation writes passes it again. *)
Theorem deactivate_then_gate
    (db : Store) (admin target : User.t) (user_id : Z)
    (db_now db_now' : datetime) :
  user_id <> User.id admin ->
  query_user user_id db = Some target ->
  exists off db1 on db2,
    deactivate_user user_id admin db_now db = (inr off, db1) /\
    query_user user_id db1 = Some off /\
    get_current_active_user off = inl (HTTPException 400 "Inactive user") /\
    activate_user user_id admin db_now' db1 = (inr on, db2) /\
    query_user user_id db2 = Some on /\
    get_current_active_user on = inr on /\
    User.username on = User.username target /\
    User.email on = User.email target /\
    User.hashed_password on = User.hashed_password target /\
    User.is_admin on = User.is_admin target.
Proof.
  intros Hne Hq. destruct (query_user_Some _ _ _ Hq) as [_ Hid].
  destruct (flush_user_is_active db_now false target)
    as (Ha & Hi & Hu & He & Hh & _ & Hadm & _).
  cbv zeta in *.
  set (off := flush_user db_now target (User.with_is_active false target))
    in *.
  set (db1 := mkStore (save_user off (users db)) (tasks db)).
  assert (Hq1 : query_user user_id db1 = Some off).
  { rewrite <- Hid, <- Hi. apply (query_user_saved _ _ target).
    now rewrite Hi, Hid. }
  destruct (flush_user_is_active db_now' true off)
    as (Ha' & Hi' & Hu' & He' & Hh' & _ & Hadm' & _).
  cbv zeta in *.
  set (on := flush_user db_now' off (User.with_is_active true off)) in *.
  set (db2 := mkStore (save_user on (users db1)) (tasks db1)).
  exists off, db1, on, db2.
  split.
  { unfold deactivate_user. rewrite decide_False by assumption.
    now rewrite Hq. }
  split; [exact Hq1|].
  split; [unfold get_current_active_user; now rewrite Ha|].
  split; [unfold activate_user; now rewrite Hq1|].
  split.
  { replace user_id with (User.id on) by congruence.
    apply (query_user_saved on db1 off).
    replace (User.id on) with user_id by congruence. exact Hq1. }
  split; [unfold get_current_active_user; now rewrite Ha'|].
  repeat split; congruence.
Qed.

Lemma deactivate_then_gate_witness :
  exists off db1,
    deactivate_user 2 alice 5 sample_db = (inr off, db1) /\
    get_current_active_user off = inl (HTTPException 400 "Inactive user").
Proof.
  destruct (deactivate_then_gate sample_db alice bob 2 5 6)
    as (off & db1 & _ & _ & Hd & _ & Hg & _).
  - simpl. lia.
  - reflexivity.
  - exists off, db1. split; [exact Hd | exact Hg].
Defined.

(** ** Authentication *)

Section Authentication_properties.

Variable sign : string -> str -> gmap string claim -> str.
Variable pwd_verify : str -> str -> bool.
Variable settings : Settings.
Variable int_of_str : str -> option Z.

(** The outcomes of [login], case by case. *)
Lemma login_cases
    (username password : str) (utcnow microsecond : Z) (db : Store) :
  snd (login sign pwd_verify settings username password utcnow microsecond db) = db /\
  (forall e,
     fst (login sign pwd_verify settings username password utcnow microsecond db) = inl e
     -> e = incorrect_credentials /\ status_of e = 401) /\
  ((forall u, u ∈ users db -> User.username u <> username) ->
   fst (login sign pwd_verify settings username password utcnow microsecond db) =
     inl incorrect_credentials) /\
  (forall user,
     head (filter (fun u => User.username u = username) (users db)) =
       Some user ->
     pwd_verify password (User.hashed_password user) = false ->
     fst (login sign pwd_verify settings username password utcnow microsecond db) =
       inl incorrect_credentials) /\
  (forall tok,
     fst (login sign pwd_verify settings username password utcnow microsecond db) =
       inr tok ->
     exists user,
       head (filter (fun u => User.username u = username) (users db)) =
         Some user /\
       user ∈ users db /\ User.username user = username /\
       pwd_verify password (User.hashed_password user) = true /\
       token_type tok = "bearer" /\
       access_token tok =
         create_access_token sign settings
           {["sub" := ClaimStr (str_of_int (User.id user))]} None
           utcnow microsecond).
Proof.
  unfold login, verify_password.
  destruct (head (filter (fun u => User.username u = username) (users db)))
    as [user|] eqn:E.
  - destruct (pwd_verify password (User.hashed_password user)) eqn:V;
      cbn [negb fst snd].
    + split; [reflexivity|]. split; [discriminate|]. split.
      { intros Hfree. apply head_Some_elem_of, list_elem_of_filter in E
          as [Hn Hin]. destruct (Hfree user Hin Hn). }
      split; [intros ? [= <-]; congruence|].
      intros tok [= <-]. exists user.
      pose proof E as E'.
      apply head_Some_elem_of, list_elem_of_filter in E' as [Hn Hin].
      auto 10.
    + split; [reflexivity|]. split; [intros e [= <-]; auto|].
      repeat split; discriminate.
  - cbn [fst snd]. split; [reflexivity|].
    split; [intros e [= <-]; auto|].
    repeat split; discriminate.
Qed.

(** [login] never writes; it fails in one way only, with the same 401 for
    an unknown username and for a wrong password; and it issues a token
    only for the first user of that username and a password that
    verifies against the stored hash: a bearer token with the decimal user
    id as subject. *)
Theorem login_outcomes
    (username password : str) (utcnow microsecond : Z) (db : Store) :
  snd (login sign pwd_verify settings username password utcnow microsecond db) = db /\
  (forall e,
     fst (login sign pwd_verify settings username password utcnow microsecond db) = inl e
     -> e = incorrect_credentials /\ status_of e = 401) /\
  ((forall u, u ∈ users db -> User.username u <> username) ->
   fst (login sign pwd_verify settings username password utcnow microsecond db) =
     inl incorrect_credentials) /\
  (forall user,
     head (filter (fun u => User.username u = username) (users db)) =
       Some user ->
     pwd_verify password (User.hashed_password user) = false ->
     fst (login sign pwd_verify settings username password utcnow microsecond db) =
       inl incorrect_credentials) /\
  (forall tok,
     fst (login sign pwd_verify settings username password utcnow microsecond db) =
       inr tok ->
     exists user,
       head (filter (fun u => User.username u = username) (users db)) =
         Some user /\
       user ∈ users db /\ User.username user = username /\
       pwd_verify password (User.hashed_password user) = true /\
       token_type tok = "bearer" /\
       access_token tok =
         create_access_token sign settings
           {["sub" := ClaimStr (str_of_int (User.id user))]} None
           utcnow microsecond).
Proof. exact (login_cases username password utcnow microsecond db). Qed.

(** What [get_current_user] answers: every refusal is the same 401,
    whatever the cause (a token that does not decode, no subject, no user
    of that id); a user is answered only from the table, for a token that
    decodes and whose subject reads as the id of that user. *)
Theorem get_current_user_outcomes
    (t : token) (utcnow : datetime) (db : Store) :
  (forall e,
     get_current_user sign settings int_of_str t utcnow db = Returned (inl e)
     -> e = credentials_exception /\ status_of e = 401) /\
  (decode_token sign settings int_of_str t utcnow = None ->
   get_current_user sign settings int_of_str t utcnow db =
     Returned (inl credentials_exception)) /\
  (forall payload,
     decode_token sign settings int_of_str t utcnow = Some payload ->
     payload !! "sub" = None ->
     get_current_user sign settings int_of_str t utcnow db =
       Returned (inl credentials_exception)) /\
  (forall payload v n,
     decode_token sign settings int_of_str t utcnow = Some payload ->
     payload !! "sub" = Some v -> int_of_claim int_of_str v = Some n ->
     (forall u, u ∈ users db -> User.id u <> n) ->
     get_current_user sign settings int_of_str t utcnow db =
       Returned (inl credentials_exception)) /\
  (forall user,
     get_current_user sign settings int_of_str t utcnow db =
       Returned (inr user) ->
     user ∈ users db /\
     exists payload v,
       decode_token sign settings int_of_str t utcnow = Some payload /\
       payload !! "sub" = Some v /\
       int_of_claim int_of_str v = Some (User.id user)).
Proof.
  unfold get_current_user.
  assert (Hcred : forall e : HTTPError,
            Returned (inl e) =
              Returned (@inl HTTPError User.t credentials_exception) ->
            e = credentials_exception /\ status_of e = 401).
  { intros e [= ->]. split; reflexivity. }
  destruct (decode_token sign settings int_of_str t utcnow) as [payload|].
  2: { split; [intros e H; apply Hcred; now symmetry|].
       split; [reflexivity|]. split; [discriminate|].
       split; discriminate. }
  destruct (payload !! "sub") as [v|] eqn:Es.
  2: { split; [intros e H; apply Hcred; now symmetry|].
       split; [discriminate|]. split; [reflexivity|].
       split; [|discriminate].
       intros p v n [= <-]. congruence. }
  destruct (int_of_claim int_of_str v) as [n|] eqn:Ei.
  2: { split; [discriminate|]. split; [discriminate|].
       split; [intros p [= <-]; congruence|].
       split; [|discriminate].
       intros p v' n [= <-] Hv. congruence. }
  destruct (head (filter (fun u => User.id u = n) (users db))) as [user|]
    eqn:Eu.
  - split; [discriminate|]. split; [discriminate|].
    split; [intros p [= <-]; congruence|]. split.
    + intros p v' n' [= <-] Hv Hn Hfree.
      apply head_Some_elem_of, list_elem_of_filter in Eu as [Hid Hin].
      destruct (Hfree user Hin). congruence.
    + intros user' [= <-].
      apply head_Some_elem_of, list_elem_of_filter in Eu as [Hid Hin].
      split; [exact Hin|]. exists payload, v. rewrite Hid. auto.
  - split; [intros e H; apply Hcred; now symmetry|].
    split; [discriminate|].
    split; [intros p [= <-]; congruence|]. split; [reflexivity|].
    discriminate.
Qed.

(** Log in, then authenticate: under the primary key of the users table,
    the token [login] issues resolves to the user who logged in at every
    clock reading up to its expiry, the active gate then passes that user
    exactly when the account is active, and after the expiry the token is
    refused with 401. *)
Theorem login_then_current_user
    (username password : str) (utcnow microsecond now' : datetime)
    (db : Store) (tok : Token) :
  NoDup (map User.id (users db)) ->
  (forall u, u ∈ users db ->
     int_of_str (str_of_int (User.id u)) = Some (User.id u)) ->
  fst (login sign pwd_verify settings username password utcnow microsecond
         db) = inr tok ->
  let exp := utcnow + 60 * ACCESS_TOKEN_EXPIRE_MINUTES settings in
  exists user,
    user ∈ users db /\ User.username user = username /\
    (now' <= exp ->
     get_current_user sign settings int_of_str (access_token tok) now' db =
       Returned (inr user) /\
     current_active_user sign settings int_of_str (access_token tok) now' db =
       Returned (get_current_active_user user)) /\
    (exp < now' ->
     get_current_user sign settings int_of_str (access_token tok) now' db =
       Returned (inl credentials_exception)).
Proof.
  intros Hkey Hint Hlogin exp.
  destruct (proj2 (proj2 (proj2 (proj2
              (login_cases username password utcnow microsecond db))))
              tok Hlogin)
    as (user & _ & Hin & Hname & _ & _ & Htok).
  exists user. split; [exact Hin|]. split; [exact Hname|].
  assert (Hd : decode_token sign settings int_of_str (access_token tok) now' =
               if exp <? now' then None
               else Some (<["exp" := ClaimInt exp]>
                            {["sub" := ClaimStr (str_of_int (User.id user))]})).
  { rewrite Htok. unfold create_access_token. rewrite timegm_after_whole.
    replace (utcnow + ACCESS_TOKEN_EXPIRE_MINUTES settings * 60) with exp
      by (unfold exp; ring).
    rewrite decode_signed, validate_claims_sub_exp.
    destruct (exp <? now'); reflexivity. }
  split.
  - intros Hle.
    assert (Hg : get_current_user sign settings int_of_str
                   (access_token tok) now' db = Returned (inr user)).
    { unfold get_current_user. rewrite Hd.
      destruct (Z.ltb_spec exp now'); [lia|].
      rewrite lookup_insert_ne by discriminate.
      rewrite lookup_singleton_eq. cbn [int_of_claim].
      rewrite (Hint user Hin).
      change (head (filter (fun u => User.id u = User.id user) (users db)))
        with (query_user (User.id user) db).
      now rewrite query_user_keyed. }
    split; [exact Hg|]. unfold current_active_user. now rewrite Hg.
  - intros Hlt. unfold get_current_user. rewrite Hd.
    destruct (Z.ltb_spec exp now'); [reflexivity | lia].
Qed.

(** The checks on claims that carry none of [iat], [nbf], [aud], [jti]
    and [at_hash] and whose subject, if any, is a string: only the expiry
    counts. *)
Lemma validate_claims_plain
    (data : gmap string claim) (exp now' : Z) :
  plain_claims data ->
  validate_claims int_of_str (<["exp" := ClaimInt exp]> data) now' =
  if exp <? now' then Some ExpiredSignatureError else None.
Proof.
  intros (Hiat & Hnbf & Haud & Hjti & Hat & Hsub).
  unfold validate_claims.
  rewrite lookup_insert_eq.
  rewrite (lookup_insert_ne data "exp" "iat"), Hiat by discriminate.
  rewrite (lookup_insert_ne data "exp" "nbf"), Hnbf by discriminate.
  rewrite (lookup_insert_ne data "exp" "aud"), Haud by discriminate.
  rewrite (lookup_insert_ne data "exp" "jti"), Hjti by discriminate.
  rewrite (lookup_insert_ne data "exp" "at_hash"), Hat by discriminate.
  rewrite (lookup_insert_ne data "exp" "sub") by discriminate.
  cbn [int_of_claim negb].
  destruct (exp <? now'); [reflexivity|].
  rewrite bool_decide_eq_false_2 by (intros [? [=]]).
  destruct (data !! "sub") as [[s|n]|] eqn:E; try reflexivity.
  destruct (Hsub n). reflexivity.
Qed.

(** The lifetime of a token: a zero [expires_delta] stands for the
    default lifetime; any other one, to the microsecond and also when it
    is negative, is added to the reading of the clock, and the sum rounded
    down to whole seconds is the [exp] of the token, in place of an [exp]
    the data carries; decoding gives the data with that [exp] when they
    pass the checks on the claims, and [None] otherwise.  For data without
    [iat], [nbf], [aud], [jti] and [at_hash] and no integer subject, the
    token decodes exactly up to that [exp], and it is refused already at
    the second of issue exactly when the delta takes the clock below that
    second. *)
Theorem token_lifetime
    (data : gmap string claim) (delta : timedelta)
    (issued microsecond now' : Z) :
  let exp := timegm_after issued microsecond delta in
  let stamped := <["exp" := ClaimInt exp]> data in
  let t :=
    create_access_token sign settings data (Some delta) issued microsecond in
  create_access_token sign settings data (Some 0) issued microsecond =
    create_access_token sign settings data None issued microsecond /\
  (forall k, delta = k * 1000000 -> exp = issued + k) /\
  (delta <> 0 ->
   decode_token sign settings int_of_str t now' =
     match validate_claims int_of_str stamped now' with
     | Some _ => None
     | None => Some stamped
     end) /\
  (delta <> 0 -> plain_claims data ->
   decode_token sign settings int_of_str t now' =
     (if exp <? now' then None else Some stamped) /\
   (decode_token sign settings int_of_str t issued = None <->
    microsecond mod 1000000 + delta < 0)).
Proof.
  intros exp stamped t.
  assert (Ht : delta <> 0 ->
            t = jwt_encode sign stamped (SECRET_KEY settings)
                  (ALGORITHM settings)).
  { intros Hd. unfold t, create_access_token.
    destruct (Z.eqb_spec delta 0) as [E|_]; [contradiction | reflexivity]. }
  split; [reflexivity|]. split; [|split].
  - intros k ->. apply timegm_after_whole.
  - intros Hd. rewrite (Ht Hd). apply decode_signed.
  - intros Hd Hplain.
    assert (Hdec : forall now,
              decode_token sign settings int_of_str t now =
              if exp <? now then None else Some stamped).
    { intros now. rewrite (Ht Hd), decode_signed.
      unfold stamped. rewrite validate_claims_plain by assumption.
      destruct (exp <? now); reflexivity. }
    split; [apply Hdec|]. rewrite Hdec.
    assert (Hm := Z.mod_pos_bound microsecond 1000000 eq_refl).
    unfold exp, timegm_after.
    destruct (Z.ltb_spec
                ((issued * 1000000 + microsecond mod 1000000 + delta) /
                 1000000) issued) as [Hlt|Hge].
    + split; [intros _|reflexivity].
      destruct (Z.lt_ge_cases (microsecond mod 1000000 + delta) 0)
        as [?|Hpos]; [assumption|].
      assert (issued <=
              (issued * 1000000 + microsecond mod 1000000 + delta) / 1000000)
        by (apply Z.div_le_lower_bound; lia).
      lia.
    + split; [discriminate|]. intros Hneg.
      assert ((issued * 1000000 + microsecond mod 1000000 + delta) / 1000000
              < issued) by (apply Z.div_lt_upper_bound; lia).
      lia.
Qed.

End Authentication_properties.

Lemma login_outcomes_witness :
  fst (login toy_sign toy_verify toy_settings (py "alice") (py "wrong") 0 0
         alice_registered) = inl incorrect_credentials /\
  fst (login toy_sign toy_verify toy_settings (py "nobody") (py "wrong") 0 0
         alice_registered) = inl incorrect_credentials.
Proof.
  split.
  - destruct (login_outcomes toy_sign toy_verify toy_settings
                (py "alice") (py "wrong") 0 0 alice_registered)
      as (_ & _ & _ & H & _).
    eapply H; reflexivity.
  - destruct (login_outcomes toy_sign toy_verify toy_settings
                (py "nobody") (py "wrong") 0 0 alice_registered)
      as (_ & _ & H & _).
    apply H. intros u Hu. simpl in Hu.
    apply list_elem_of_singleton in Hu as ->. discriminate.
Defined.

Lemma get_current_user_outcomes_witness :
  get_current_user toy_sign toy_settings toy_int (Malformed (py "x.y.z")) 0
    sample_db = Returned (inl credentials_exception).
Proof.
  apply (get_current_user_outcomes toy_sign toy_settings toy_int).
  reflexivity.
Defined.

Lemma login_then_current_user_witness :
  exists tok user,
    fst (login toy_sign toy_verify toy_settings (py "alice")
           (py "TestPass123!") 1000 250000 alice_registered) = inr tok /\
    get_current_user toy_sign toy_settings toy_int (access_token tok) 2000
      alice_registered = Returned (inr user) /\
    User.username user = py "alice".
Proof.
  pose (tok := mkToken
    (create_access_token toy_sign toy_settings
       {["sub" := ClaimStr (str_of_int 1)]} None 1000 250000) "bearer").
  assert (Hint : forall u, u ∈ users alice_registered ->
            toy_int (str_of_int (User.id u)) = Some (User.id u)).
  { intros u Hu. simpl in Hu. apply list_elem_of_singleton in Hu as ->.
    reflexivity. }
  assert (Hlogin : fst (login toy_sign toy_verify toy_settings (py "alice")
                          (py "TestPass123!") 1000 250000 alice_registered) =
                   inr tok) by reflexivity.
  destruct (login_then_current_user toy_sign toy_verify toy_settings toy_int
              (py "alice") (py "TestPass123!") 1000 250000 2000
              alice_registered tok (NoDup_singleton _) Hint Hlogin)
    as (user & _ & Hn & Hok & _).
  exists tok, user. split; [exact Hlogin|].
  split; [apply Hok; simpl; lia | exact Hn].
Defined.

Lemma token_lifetime_witness :
  decode_token toy_sign toy_settings toy_int
    (create_access_token toy_sign toy_settings
       {["sub" := ClaimStr (py "1")]} (Some (-1)) 1000 500000) 1000 =
    Some (<["exp" := ClaimInt 1000]> {["sub" := ClaimStr (py "1")]}) /\
  decode_token toy_sign toy_settings toy_int
    (create_access_token toy_sign toy_settings
       {["sub" := ClaimStr (py "1")]} (Some (-1)) 1000 0) 1000 = None.
Proof.
  assert (Hp : plain_claims {["sub" := ClaimStr (py "1")]}).
  { repeat split; try (apply lookup_singleton_ne; discriminate).
    intros n. rewrite lookup_singleton_eq. discriminate. }
  split.
  - destruct (token_lifetime toy_sign toy_settings toy_int
                {["sub" := ClaimStr (py "1")]} (-1) 1000 500000 1000)
      as (_ & _ & _ & H).
    destruct (H ltac:(discriminate) Hp) as [Hd _]. exact Hd.
  - destruct (token_lifetime toy_sign toy_settings toy_int
                {["sub" := ClaimStr (py "1")]} (-1) 1000 0 1000)
      as (_ & _ & _ & H).
    destruct (H ltac:(discriminate) Hp) as [_ Hd]. apply Hd.
    reflexivity.
Defined.

Lemma validate_email_accepts_witness :
  exists l d t nl,
    py "test@example.com" = l ++ AT :: d ++ DOT :: t ++ nl /\
    (2 <= length t)%nat.
Proof.
  destruct (proj1 (validate_email_accepts (py "test@example.com")) eq_refl)
    as (l & d & t & nl & Hs & _ & _ & _ & _ & Hlen & _).
  exists l, d, t, nl. split; [exact Hs | exact Hlen].
Defined.

Lemma create_then_get_witness :
  exists t db',
    create_task (TaskCreate.mk (py "t") None LOW None) bob 5 sample_db =
      (inr t, db') /\
    get_task (Task.id t) bob db' = (inr t, db') /\
    Task.id alice_task < Task.id t.
Proof.
  destruct (create_then_get (TaskCreate.mk (py "t") None LOW None) bob 5
              sample_db) as (t & db' & Hc & Hfresh & _ & _ & Hg & _).
  exists t, db'. split; [exact Hc|]. split; [exact Hg|].
  apply Hfresh. simpl. left.
Defined.
